(** * Interview coach: the session handler, the transcript analyzer and the
      gaze classifier

    A shallow embedding of [backend/server.js] (the function
    [analyzeTranscript] and the WebSocket message handler) and of the
    function [detectEyeContact] of the client, with the properties their
    specification states.

    Conventions of the embedding.
    - A JavaScript string is the list of its UTF-16 code units ([jsstring]).
      The texts the program builds from its own literals (suggestions) are
      kept as Rocq strings, byte for byte as they stand in the source file.
    - The numbers of the gaze classifier are binary64 ([float]), with the
      rounding of every operation, since its thresholds depend on it.
      Elsewhere JavaScript numbers are taken in exact arithmetic: counters
      and rounded values are in [Z], durations in [Q]; there the rounding
      of binary64 (and the exponent notation that printing uses from 1e21
      on) is not modelled.
    - [Date.now()] is an explicit argument, in milliseconds.
    - [console.log] has no effect on the session; it is kept where
      evaluating its argument can throw. *)

From Stdlib Require Import ZArith QArith Qround Qabs Qminmax List String Ascii Bool Lia Lqa.
From Stdlib Require Import Floats.
From Stdlib Require Import DecimalString.
Import ListNotations.

Open Scope Z_scope.

(** ** JavaScript strings and the built-ins the program calls *)

Module JS.

(** A string as its UTF-16 code units. *)
Definition jsstring := list N.

(** The code units of an ASCII literal of the source. *)
Definition lit (s : string) : jsstring :=
  map N_of_ascii (list_ascii_of_string s).

(** The class [\s] of a regular expression: WhiteSpace and LineTerminator
    of ECMAScript. *)
Definition is_space (c : N) : bool :=
  ((9 <=? c) && (c <=? 13) || (c =? 32) || (c =? 160) || (c =? 5760)
   || (8192 <=? c) && (c <=? 8202) || (c =? 8232) || (c =? 8233)
   || (c =? 8239) || (c =? 8287) || (c =? 12288) || (c =? 65279))%N.

(** The class [\w] (no unicode flag): [A-Za-z0-9_]. *)
Definition is_word_char (c : N) : bool :=
  ((65 <=? c) && (c <=? 90) || (97 <=? c) && (c <=? 122)
   || (48 <=? c) && (c <=? 57) || (c =? 95))%N.

(** Canonicalize of a regular expression with the flag [i] and without the
    flag [u].  The patterns of this program are ASCII letters and the space;
    a code unit outside ASCII never canonicalizes into ASCII (the standard
    keeps it unchanged when its upper case would be ASCII), so only the
    ASCII letters need folding here. *)
Definition canonicalize (c : N) : N :=
  if ((97 <=? c) && (c <=? 122))%N then (c - 32)%N else c.

(** [\b] between the code unit before a position and the one at it
    ([None] at either end of the string). *)
Definition word_at (c : option N) : bool :=
  match c with Some u => is_word_char u | None => false end.

Definition boundary (before after : option N) : bool :=
  xorb (word_at before) (word_at after).

(** The literal [word] read case-insensitively at the head of [s]: the last
    code unit read and the rest of [s], when it matches. *)
Fixpoint literal_ci (word s : jsstring) (last : option N)
  : option (option N * jsstring) :=
  match word with
  | [] => Some (last, s)
  | p :: word' =>
      match s with
      | [] => None
      | c :: s' =>
          if (canonicalize c =? canonicalize p)%N
          then literal_ci word' s' (Some c)
          else None
      end
  end.

(** One attempt of [/\bword\b/i] at a position: [before] is the code unit
    that precedes it, [s] the string from it on. *)
Definition match_here (word : jsstring) (before : option N) (s : jsstring)
  : bool :=
  boundary before (hd_error s) &&
  match literal_ci word s before with
  | Some (last, rest) => boundary last (hd_error rest)
  | None => false
  end.

(** The scan of [String.prototype.match] with the flag [g]: after a match
    the search resumes at its end ([skip] counts the code units of the
    match still to pass), otherwise one code unit further. *)
Fixpoint match_scan (word : jsstring) (before : option N) (skip : nat)
  (s : jsstring) : nat :=
  match s with
  | [] => 0%nat
  | c :: s' =>
      match skip with
      | S k => match_scan word (Some c) k s'
      | O =>
          if match_here word before s
          then S (match_scan word (Some c) (Nat.pred (List.length word)) s')
          else match_scan word (Some c) 0 s'
      end
  end.

(** [(s.match(new RegExp(`\\b${word}\\b`, 'gi')) || []).length] for a
    non-empty literal [word]. *)
Definition match_count (word : string) (s : jsstring) : Z :=
  Z.of_nat (match_scan (lit word) None 0 s).

(** [s.split(/\s+/)]: [piece] holds, reversed, the code units read since
    the last separator; [in_sep] tells that the code unit before was part
    of a separator, which a further white space only extends. *)
Fixpoint split_scan (in_sep : bool) (piece : jsstring) (s : jsstring)
  : list jsstring :=
  match s with
  | [] => [rev piece]
  | c :: s' =>
      if is_space c
      then if in_sep then split_scan true piece s'
           else rev piece :: split_scan true [] s'
      else split_scan false (c :: piece) s'
  end.

Definition split_spaces (s : jsstring) : list jsstring :=
  split_scan false [] s.

(** [===] on two strings. *)
Fixpoint same (a b : jsstring) : bool :=
  match a, b with
  | [], [] => true
  | c :: a', d :: b' => (c =? d)%N && same a' b'
  | _, _ => false
  end.

(** [s.trim()]. *)
Fixpoint trim_start (s : jsstring) : jsstring :=
  match s with
  | c :: s' => if is_space c then trim_start s' else s
  | [] => []
  end.

Definition trim (s : jsstring) : jsstring :=
  rev (trim_start (rev (trim_start s))).

(** [Math.round]: the nearest integer, a tie going up. *)
Definition Math_round (x : Q) : Z := Qfloor (x + (1 # 2)).

(** A number of a template literal, in decimal. *)
Definition show (n : Z) : string := NilZero.string_of_int (Z.to_int n).

(** [[...new Set(l)]]: the first occurrence of every string, in order. *)
Fixpoint dedup_from (seen : list string) (l : list string) : list string :=
  match l with
  | [] => []
  | x :: l' =>
      if existsb (String.eqb x) seen then dedup_from seen l'
      else x :: dedup_from (x :: seen) l'
  end.

Definition dedup (l : list string) : list string := dedup_from [] l.

End JS.

Import JS.

(** ** The analyzer: [analyzeTranscript] of [backend/server.js] *)

Module Analyzer.

Open Scope string_scope.
Open Scope Z_scope.

(** The two variables the rubrics update: [score] and [suggestions]. *)
Record tally := { score : Z; suggestions : list string }.

(** [score += d] *)
Definition add (d : Z) (t : tally) : tally :=
  {| score := score t + d; suggestions := suggestions t |}.

(** [suggestions.push(text)] *)
Definition push (text : string) (t : tally) : tally :=
  {| score := score t; suggestions := (suggestions t ++ [text])%list |}.

Record metrics := {
  m_fillerWords : Z;
  m_wordsPerMinute : Z;
  m_totalWords : Z;
  m_eyeContactScore : Z;
  m_facesDetected : Z;
  m_actionVerbs : Z
}.

Record analysis := {
  a_score : Z;
  a_suggestions : list string;
  a_metrics : metrics
}.

Definition fillerWords : list string :=
  ["um"; "uh"; "like"; "you know"; "basically"; "actually"; "literally"].

Definition actionVerbs : list string :=
  ["achieved"; "led"; "managed"; "created"; "delivered"; "improved";
   "increased"; "reduced"; "solved"; "implemented"].

(** The [forEach] loops: the matches of every word of a lexicon, added up
    in the order of the lexicon. *)
Definition count_matches (lexicon : list string) (transcript : jsstring) : Z :=
  fold_left (fun count word => count + match_count word transcript) lexicon 0.

Definition fillerCount (transcript : jsstring) : Z :=
  count_matches fillerWords transcript.

Definition actionVerbCount (transcript : jsstring) : Z :=
  count_matches actionVerbs transcript.

Definition wordCount (transcript : jsstring) : Z :=
  Z.of_nat (List.length (split_spaces transcript)).

Definition minutesDuration (duration : Q) : Q := duration / 60.

(** [Math.round(wordCount / minutesDuration)].  At [duration = 0] the
    program divides by zero and gets [Infinity]; the division of [Q] gives 0
    there, so what is stated of [wpm] assumes [0 < duration], as the
    contract of the function does. *)
Definition wpm (transcript : jsstring) (duration : Q) : Z :=
  Math_round (inject_Z (wordCount transcript) / minutesDuration duration).

(** 1. Filler word detection *)
Definition rubric_filler (transcript : jsstring) (t : tally) : tally :=
  let fillerCount := fillerCount transcript in
  if fillerCount =? 0 then
    push "✅ Excellent! No filler words detected" (add 2 t)
  else if fillerCount <=? 2 then
    push ("⚠️ Reduce filler words (found " ++ show fillerCount ++ ")") (add 1 t)
  else
    push ("❌ Too many filler words (" ++ show fillerCount
          ++ " found) - Speak with confidence") t.

(** 2. Speaking pace (words per minute) *)
Definition rubric_pace (transcript : jsstring) (duration : Q) (t : tally)
  : tally :=
  let wpm := wpm transcript duration in
  if (120 <=? wpm) && (wpm <=? 150) then
    push ("✅ Perfect pace: " ++ show wpm ++ " words/min (120-150 is ideal)")
         (add 1 t)
  else if wpm <? 80 then
    push ("⚠️ Speaking too slowly (" ++ show wpm ++ " wpm) - Pick up the pace") t
  else if 180 <? wpm then
    push ("⚠️ Speaking too fast (" ++ show wpm
          ++ " wpm) - Slow down for clarity") t
  else t.

(** 3. Eye contact detection *)
Definition rubric_gaze (eyeContactScore : Z) (t : tally) : tally :=
  if 80 <=? eyeContactScore then
    push "✅ Excellent eye contact maintained" (add 2 t)
  else if 60 <=? eyeContactScore then
    push ("⚠️ Maintain more eye contact (" ++ show eyeContactScore
          ++ "% detected)") (add 1 t)
  else
    push ("❌ Poor eye contact (" ++ show eyeContactScore
          ++ "%) - Look at the camera") t.

(** 4. Response length *)
Definition rubric_length (transcript : jsstring) (t : tally) : tally :=
  let wordCount := wordCount transcript in
  if wordCount <? 50 then
    push "⚠️ Response too short - Provide more details" t
  else if 500 <? wordCount then
    push "⚠️ Response too long - Be more concise" t
  else
    push "✅ Good response length" (add 1 t).

(** 5. Content quality *)
Definition rubric_verbs (transcript : jsstring) (t : tally) : tally :=
  let actionVerbCount := actionVerbCount transcript in
  if 3 <=? actionVerbCount then
    push ("✅ Great use of action verbs (" ++ show actionVerbCount ++ " found)")
         (add 2 t)
  else if 0 <? actionVerbCount then
    push ("⚠️ Use more action verbs (" ++ show actionVerbCount
          ++ " found - aim for 3+)") (add 1 t)
  else
    push "❌ Include action verbs (achieved, led, managed, etc.)" t.

(** [let score = 6; const suggestions = [];] *)
Definition initial : tally := {| score := 6; suggestions := [] |}.

(** The body of the function down to the last rubric: [score] and
    [suggestions] as they stand before the clamp and the [Set]. *)
Definition assess (transcript : jsstring) (duration : Q)
  (eyeContactScore : Z) : tally :=
  rubric_verbs transcript
    (rubric_length transcript
       (rubric_gaze eyeContactScore
          (rubric_pace transcript duration
             (rubric_filler transcript initial)))).

(** [Math.min(10, Math.max(1, score))] *)
Definition clamp (score : Z) : Z := Z.min 10 (Z.max 1 score).

(** The returned object, without its three display strings [analysis]. *)
Definition analyzeTranscript (transcript : jsstring) (duration : Q)
  (eyeContactScore facesDetected : Z) : analysis :=
  let t := assess transcript duration eyeContactScore in
  {| a_score := clamp (score t);
     a_suggestions := dedup (suggestions t);
     a_metrics :=
       {| m_fillerWords := fillerCount transcript;
          m_wordsPerMinute := wpm transcript duration;
          m_totalWords := wordCount transcript;
          m_eyeContactScore := eyeContactScore;
          m_facesDetected := facesDetected;
          m_actionVerbs := actionVerbCount transcript |} |}.

End Analyzer.

(** ** The session: the message handler of [backend/server.js] *)

Module Session.

Import Analyzer.

Open Scope string_scope.
Open Scope Z_scope.

(** What [JSON.parse] returns. *)
#[warnings="-register-all"]
Inductive json :=
| JNull
| JBool (b : bool)
| JNum (q : Q)
| JStr (s : jsstring)
| JArr (items : list json)
| JObj (fields : list (jsstring * json)).

(** What reading a property gives: [None] is [undefined]. *)
Definition value := option json.

(** [JSON.parse] itself is the platform's.  An inbound message is given by
    what [JSON.parse] makes of it: the [SyntaxError] it throws, with its
    description, or the value it returns. *)
Inductive inbound :=
| Undecodable (description : string)
| Decoded (data : json).

Inductive js_error :=
| SyntaxError (description : string)
| TypeError (description : string).

(** [error.message] *)
Definition message_of (e : js_error) : string :=
  match e with SyntaxError d => d | TypeError d => d end.

Record sessionData := {
  transcript : jsstring;
  startTime : Z;
  eyeContactScores : list value;
  facesDetected : Z
}.

(** The messages [ws.send] writes. *)
Inductive outbound :=
| status (message : string)
| final_analysis (text : jsstring) (result : analysis)
| error (message : string).

(** The session of a connection and what has been sent on it, oldest
    first. *)
Record world := { session : sessionData; sent : list outbound }.

(** A step ends normally, or throws, or leaves the part of JavaScript
    modelled here (arithmetic on values that are not numbers).  What it
    wrote to the session before it threw stays written. *)
Inductive outcome (A : Type) :=
| Normal (a : A)
| Throw (e : js_error)
| Unmodelled.

Arguments Normal {A} a.
Arguments Throw {A} e.
Arguments Unmodelled {A}.

Definition M (A : Type) : Type := world -> outcome A * world.

Definition ret {A} (a : A) : M A := fun w => (Normal a, w).

Definition bind {A B} (c : M A) (k : A -> M B) : M B :=
  fun w =>
    match c w with
    | (Normal a, w') => k a w'
    | (Throw e, w') => (Throw e, w')
    | (Unmodelled, w') => (Unmodelled, w')
    end.

Notation "x <- c ;; k" := (bind c (fun x => k))
  (at level 61, c at next level, right associativity).
Notation "c ;;; k" := (bind c (fun _ => k))
  (at level 61, right associativity).

Definition throw {A} (e : js_error) : M A := fun w => (Throw e, w).

Definition unmodelled {A} : M A := fun w => (Unmodelled, w).

(** A computation that does not touch the session. *)
Definition lift {A} (o : outcome A) : M A := fun w => (o, w).

(** [try { body } catch (error) { handler(error) }] *)
Definition try_catch {A} (body : M A) (handler : js_error -> M A) : M A :=
  fun w =>
    match body w with
    | (Throw e, w') => handler e w'
    | r => r
    end.

Definition get_session : M sessionData := fun w => (Normal (session w), w).

Definition set_session (s : sessionData) : M unit :=
  fun w => (Normal tt, {| session := s; sent := sent w |}).

Definition ws_send (m : outbound) : M unit :=
  fun w => (Normal tt, {| session := session w; sent := (sent w ++ [m])%list |}).

Definition JSON_parse (message : inbound) : M json :=
  match message with
  | Undecodable description => throw (SyntaxError description)
  | Decoded data => ret data
  end.

(** The own property [key] of an object that [JSON.parse] built: of two
    members with one name the later one stays. *)
Fixpoint own (key : jsstring) (fields : list (jsstring * json)) : value :=
  match fields with
  | [] => None
  | (k, v) :: rest =>
      match own key rest with
      | Some later => Some later
      | None => if same k key then Some v else None
      end
  end.

(** [data.key] for the keys the handler reads ([type], [transcript],
    [score]): no prototype defines them, so they are [undefined] unless
    [data] is an object that has them; on [null] the access throws. *)
Definition Get (data : json) (key : string) : M value :=
  match data with
  | JNull =>
      throw (TypeError ("Cannot read properties of null (reading '"
                        ++ key ++ "')"))
  | JObj fields => ret (own (lit key) fields)
  | _ => ret None
  end.

(** [v === 'text'] *)
Definition equals (v : value) (text : string) : bool :=
  match v with
  | Some (JStr s) => same s (lit text)
  | _ => false
  end.

(** [console.log('...', data.transcript.substring(0, 50))]: only a string
    has a method [substring]. *)
Definition log_substring (v : value) : M unit :=
  match v with
  | Some (JStr s) => ret tt
  | None =>
      throw (TypeError
               "Cannot read properties of undefined (reading 'substring')")
  | Some JNull =>
      throw (TypeError "Cannot read properties of null (reading 'substring')")
  | Some _ => throw (TypeError "data.transcript.substring is not a function")
  end.

(** Whether ToString succeeds on a value of [JSON.parse].  An object with
    an own member [toString] has no callable [toString] (a JSON value is
    never a function) and the [valueOf] it inherits returns the object
    itself, so its conversion throws; any other object prints as
    [[object Object]].  An array joins the conversions of its items. *)
Fixpoint printable (v : json) : bool :=
  match v with
  | JArr items => forallb printable items
  | JObj fields =>
      match own (lit "toString") fields with
      | Some _ => false
      | None => true
      end
  | _ => true
  end.

(** [console.log(`... ${data.score}%`)] *)
Definition log_template (v : value) : M unit :=
  match v with
  | Some j =>
      if printable j then ret tt
      else throw (TypeError "Cannot convert object to primitive value")
  | None => ret tt
  end.

(** [text + ' ' + fragment] *)
Definition appended (text fragment : jsstring) : jsstring :=
  (text ++ 32%N :: fragment)%list.

(** [sessionData.transcript += ' ' + data.transcript], reached with a
    string only: [log_substring] has thrown on anything else. *)
Definition append_transcript (v : value) : M unit :=
  match v with
  | Some (JStr fragment) =>
      s <- get_session ;;
      set_session {| transcript := appended (transcript s) fragment;
                     startTime := startTime s;
                     eyeContactScores := eyeContactScores s;
                     facesDetected := facesDetected s |}
  | _ => unmodelled
  end.

(** [sessionData.eyeContactScores.push(data.score)] *)
Definition push_score (v : value) : M unit :=
  s <- get_session ;;
  set_session {| transcript := transcript s;
                 startTime := startTime s;
                 eyeContactScores := (eyeContactScores s ++ [v])%list;
                 facesDetected := facesDetected s |}.

(** [sessionData.facesDetected += 1] *)
Definition count_face : M unit :=
  s <- get_session ;;
  set_session {| transcript := transcript s;
                 startTime := startTime s;
                 eyeContactScores := eyeContactScores s;
                 facesDetected := facesDetected s + 1 |}.

(** The object a connection and a [start] event give [sessionData]. *)
Definition fresh (now : Z) : sessionData :=
  {| transcript := [];
     startTime := now;
     eyeContactScores := [];
     facesDetected := 0 |}.

(** [eyeContactScores.reduce((a, b) => a + b, 0)].  The accumulator [a] is
    a number, or [None] once [+] has met [undefined], a string, an array or
    an object: it is then [NaN] or a string, which this model does not
    follow further.  [null] and the booleans add as 0 and 1.  The
    conversion of a sample that is not [printable] throws. *)
Fixpoint reduce_add (a : option Q) (scores : list value)
  : outcome (option Q) :=
  match scores with
  | [] => Normal a
  | Some (JNum b) :: rest =>
      reduce_add (option_map (fun a => (a + b)%Q) a) rest
  | Some JNull :: rest => reduce_add a rest
  | Some (JBool b) :: rest =>
      reduce_add (option_map (fun a => (a + (if b then 1 else 0))%Q) a) rest
  | Some j :: rest =>
      if printable j then reduce_add None rest
      else Throw (TypeError "Cannot convert object to primitive value")
  | None :: rest => reduce_add None rest
  end.

(** [avgEyeContact] of the [stop] branch. *)
Definition avgEyeContact (scores : list value) : outcome Z :=
  if (0 <? List.length scores)%nat then
    match reduce_add (Some 0%Q) scores with
    | Normal (Some sum) =>
        Normal (Math_round
                  (sum / inject_Z (Z.of_nat (List.length scores))))
    | Normal None => Unmodelled
    | Throw e => Throw e
    | Unmodelled => Unmodelled
    end
  else Normal 0.

(** [(Date.now() - sessionData.startTime) / 1000] *)
Definition duration_at (now : Z) (s : sessionData) : Q :=
  inject_Z (now - startTime s) / 1000.

Definition stop (now : Z) : M unit :=
  s <- get_session ;;
  avg <- lift (avgEyeContact (eyeContactScores s)) ;;
  let analysis :=
    analyzeTranscript (transcript s) (duration_at now s) avg
                      (facesDetected s) in
  ws_send (final_analysis (trim (transcript s)) analysis).

(** The body of [try]. *)
Definition dispatch (now : Z) (message : inbound) : M unit :=
  data <- JSON_parse message ;;
  type <- Get data "type" ;;
  if equals type "transcript" then
    fragment <- Get data "transcript" ;;
    log_substring fragment ;;;
    append_transcript fragment
  else if equals type "eye_contact" then
    score <- Get data "score" ;;
    push_score score ;;;
    log_template score
  else if equals type "face_detected" then
    count_face
  else if equals type "start" then
    set_session (fresh now) ;;;
    ws_send (status
      "Recording started - Look at the camera and speak naturally!")
  else if equals type "stop" then
    stop now
  else ret tt.

(** [ws.on('message', ...)]: [now] is what [Date.now()] reads while the
    message is handled. *)
Definition on_message (now : Z) (message : inbound) : M unit :=
  try_catch (dispatch now message)
            (fun e => ws_send (error (message_of e))).

(** The world after a message. *)
Definition after (now : Z) (message : inbound) (w : world) : world :=
  snd (on_message now message w).

(** A connection opened at [now]. *)
Definition connect (now : Z) : world :=
  {| session := fresh now; sent := [] |}.

(** The messages of a list handled in turn, each with its time. *)
Definition run (messages : list (Z * inbound)) (w : world) : world :=
  fold_left (fun w m => after (fst m) (snd m) w) messages w.

(** The events as the client writes them. *)
Definition ev (type : string) (more : list (jsstring * json)) : inbound :=
  Decoded (JObj ((lit "type", JStr (lit type)) :: more)).

Definition ev_transcript (fragment : jsstring) : inbound :=
  ev "transcript" [(lit "transcript", JStr fragment)].

Definition ev_eye_contact (score : Z) : inbound :=
  ev "eye_contact" [(lit "score", JNum (inject_Z score))].

(** [{ type: 'start', question: question }] *)
Definition ev_start (question : jsstring) : inbound :=
  ev "start" [(lit "question", JStr question)].

Definition ev_stop : inbound := ev "stop" [].

(** The final fragments of a session, each with the time it is handled
    at. *)
Definition transcript_events (timed : list (Z * jsstring))
  : list (Z * inbound) :=
  map (fun p => (fst p, ev_transcript (snd p))) timed.

(** A numeric sample as the list of scores holds it. *)
Definition sample (q : Q) : value := Some (JNum q).

End Session.

(** ** The gaze classifier: [detectEyeContact] of the client *)

Module Gaze.

Open Scope Q_scope.

(** The numbers of this function are binary64, as in the program: every
    sum, difference, product and quotient rounds, and the thresholds are
    compared after the rounding.  The scores 90, 75, 60 and 40 are
    integers, on which the clamp and [Math.round] are exact. *)

(** [detection.detection.box] *)
Record box := { x : float; y : float; width : float; height : float }.

Definition faceCenterX (b : box) : float := (x b + width b / 2)%float.
Definition faceCenterY (b : box) : float := (y b + height b / 2)%float.

#[warnings="-inexact-float"]
Definition xTolerance (videoWidth : float) : float :=
  (videoWidth * 0.15)%float.
#[warnings="-inexact-float"]
Definition yTolerance (videoHeight : float) : float :=
  (videoHeight * 0.15)%float.

Definition xOffset (b : box) (videoWidth : float) : float :=
  abs (faceCenterX b - videoWidth / 2)%float.
Definition yOffset (b : box) (videoHeight : float) : float :=
  abs (faceCenterY b - videoHeight / 2)%float.

(** The three tests of the nested thresholds. *)
Definition within_half (b : box) (videoWidth videoHeight : float) : bool :=
  (xOffset b videoWidth <? xTolerance videoWidth * 0.5)%float
  && (yOffset b videoHeight <? yTolerance videoHeight * 0.5)%float.

Definition within_tolerance (b : box) (videoWidth videoHeight : float)
  : bool :=
  (xOffset b videoWidth <? xTolerance videoWidth)%float
  && (yOffset b videoHeight <? yTolerance videoHeight)%float.

Definition within_wide (b : box) (videoWidth videoHeight : float) : bool :=
  (xOffset b videoWidth <? xTolerance videoWidth * 1.5)%float
  && (yOffset b videoHeight <? yTolerance videoHeight * 1.5)%float.

(** The score of a detected face, by the nested thresholds. *)
Definition threshold_score (b : box) (videoWidth videoHeight : float) : Z :=
  if within_half b videoWidth videoHeight then 90%Z
  else if within_tolerance b videoWidth videoHeight then 75%Z
  else if within_wide b videoWidth videoHeight then 60%Z
  else 40%Z.

(** [Math.round(Math.max(0, Math.min(100, score)))] *)
Definition gaze_score (b : box) (videoWidth videoHeight : float) : Z :=
  Math_round
    (inject_Z (Z.max 0 (Z.min 100 (threshold_score b videoWidth videoHeight)))).

(** What a tick of the detector leaves: the two state variables it sets and
    the score it sends, if any. *)
Record tick := {
  faceDetected : bool;
  eyeContactScore : Z;
  sent_score : option Z
}.

(** [!video.videoWidth]: zero of either sign and NaN are falsy. *)
Definition falsy (n : float) : bool := (n =? 0)%float || is_nan n.

(** One tick, on the faces found in a frame; [socket_open] is
    [ws && ws.readyState === WebSocket.OPEN].  Nothing is done ([None])
    while the video has no width. *)
Definition detectEyeContact (videoWidth videoHeight : float)
  (socket_open : bool) (detections : list box) : option tick :=
  if falsy videoWidth then None
  else
    match detections with
    | b :: _ =>
        let score := gaze_score b videoWidth videoHeight in
        Some {| faceDetected := true;
                eyeContactScore := score;
                sent_score := if socket_open then Some score else None |}
    | [] =>
        Some {| faceDetected := false;
                eyeContactScore := 0%Z;
                sent_score := None |}
    end.

(** The rational number a finite binary64 value stands for (0 for an
    infinity and for NaN, which no quantity below takes). *)
Definition exact (n : float) : Q :=
  match Prim2SF n with
  | S754_finite negative m e =>
      inject_Z (if negative then Z.neg m else Z.pos m) * Qpower 2 e
  | _ => 0
  end.


End Gaze.

(** ** The quantities the specification names *)

Module Spec.

Open Scope Z_scope.

(** The bonus of each rubric, as the specification tabulates it. *)
Definition filler_delta (f : Z) : Z :=
  if f =? 0 then 2 else if (1 <=? f) && (f <=? 2) then 1 else 0.

Definition pace_delta (wpm : Z) : Z :=
  if (120 <=? wpm) && (wpm <=? 150) then 1 else 0.

Definition gaze_delta (avgGazeScore : Z) : Z :=
  if 80 <=? avgGazeScore then 2
  else if (60 <=? avgGazeScore) && (avgGazeScore <? 80) then 1 else 0.

Definition length_delta (wordCount : Z) : Z :=
  if wordCount <? 50 then 0 else if 500 <? wordCount then 0 else 1.

Definition verbs_delta (v : Z) : Z :=
  if 3 <=? v then 2 else if (0 <? v) && (v <? 3) then 1 else 0.

(** Base score 6 and the five bonuses. *)
Definition rubric_sum (f wpm avgGazeScore wordCount v : Z) : Z :=
  6 + filler_delta f + pace_delta wpm + gaze_delta avgGazeScore
  + length_delta wordCount + verbs_delta v.

(** A whole-word occurrence of a word in a text, in any case, told from
    the text alone: the code units of the word stand at a place, letter for
    letter up to case, and the code units next to them on either side, if
    any, are no word characters. *)

(** The word characters: the letters, the digits and the underscore. *)
Definition word_characters : jsstring :=
  lit "ABCDEFGHIJKLMNOPQRSTUVWXYZabcdefghijklmnopqrstuvwxyz0123456789_".

Definition word_character (c : N) : bool := existsb (N.eqb c) word_characters.

(** The lower case of a capital letter. *)
Definition lower (c : N) : N :=
  if ((65 <=? c) && (c <=? 90))%N then (c + 32)%N else c.

(** [text] is [word], up to the case of its letters. *)
Fixpoint reads (word text : jsstring) : bool :=
  match word, text with
  | [], [] => true
  | p :: word', c :: text' => (lower p =? lower c)%N && reads word' text'
  | _, _ => false
  end.

(** The code unit before the place [i] of [s], if there is one. *)
Definition before_at (s : jsstring) (i : nat) : option N :=
  match i with O => None | S j => nth_error s j end.

(** An end of the text, or a code unit that is no word character. *)
Definition outside (c : option N) : bool :=
  match c with Some u => negb (word_character u) | None => true end.

Definition stands_at (word s : jsstring) (i : nat) : bool :=
  outside (before_at s i)
  && reads word (firstn (List.length word) (skipn i s))
  && outside (nth_error s (i + List.length word)).

(** The number of places of [s] where [word] stands as a whole word. *)
Definition whole_word_occurrences (word : string) (s : jsstring) : Z :=
  Z.of_nat
    (List.length
       (filter (stands_at (lit word) s) (seq 0 (List.length s)))).

(** The whole-word occurrences of all the words of a lexicon. *)
Definition whole_words (lexicon : list string) (s : jsstring) : Z :=
  fold_right (fun word n => whole_word_occurrences word s + n) 0 lexicon.

(** A word that begins and ends with a word character. *)
Definition edged (word : jsstring) : bool :=
  match word with
  | [] => false
  | first :: _ => word_character first && word_character (last word first)
  end.

(** No filler of the lexicon other than [um] and [uh] occurs. *)
Definition only_um_and_uh (transcript : jsstring) : bool :=
  forallb (fun word => whole_word_occurrences word transcript =? 0)
          ["like"; "you know"; "basically"; "actually"; "literally"]%string.

(** Whether the pace rubric has a suggestion for a pace. *)
Definition pace_speaks (wpm : Z) : bool :=
  (120 <=? wpm) && (wpm <=? 150) || (wpm <? 80) || (180 <? wpm).

(** The words of a text: its maximal runs of code units that are not white
    space.  [in_word] tells that the code unit before was part of a word. *)
Fixpoint words_scan (in_word : bool) (s : jsstring) : nat :=
  match s with
  | [] => 0%nat
  | c :: s' =>
      if is_space c then words_scan false s'
      else ((if in_word then 0 else 1) + words_scan true s')%nat
  end.

Definition words (s : jsstring) : nat := words_scan false s.

(** The words of the fragments of a session, added up. *)
Definition fragment_words (fragments : list jsstring) : nat :=
  fold_right (fun f n => (words f + n)%nat) 0%nat fragments.

(** Whether the last code unit of a text is white space; [before] answers
    for the empty text. *)
Fixpoint ends_in_space (before : bool) (s : jsstring) : bool :=
  match s with
  | [] => before
  | c :: s' => ends_in_space (is_space c) s'
  end.

(** The arithmetic mean of a non-empty list of samples. *)
Definition mean (samples : list Q) : Q :=
  (fold_right Qplus 0 samples / inject_Z (Z.of_nat (List.length samples)))%Q.

(** [k] is [x] rounded to the nearest integer, a tie going up. *)
Definition rounds_to (x : Q) (k : Z) : Prop :=
  (inject_Z k - (1 # 2) <= x /\ x < inject_Z k + (1 # 2))%Q.

End Spec.

(** ** The scan of the matcher, position by position *)

(** Quantities of the proofs about the scan with the flag [g]: they are
    written with the matcher of the program and measure nothing by
    themselves. *)

Module Scan.

Open Scope Z_scope.

(** The attempts of the matcher of the program that succeed when every
    position of [s] is tried in turn, also those inside a match. *)
Fixpoint occurrences_scan (word : jsstring) (before : option N)
  (s : jsstring) : nat :=
  match s with
  | [] => 0%nat
  | c :: s' =>
      ((if match_here word before s then 1 else 0)
       + occurrences_scan word (Some c) s')%nat
  end.

Definition occurrences (word : string) (s : jsstring) : Z :=
  Z.of_nat (occurrences_scan (lit word) None s).

(** The successful attempts for all the words of a lexicon. *)
Definition total_occurrences (lexicon : list string) (s : jsstring) : Z :=
  fold_right (fun word n => occurrences word s + n) 0 lexicon.

(** No match of a word can start inside another one: going through
    the word, from its second code unit on, there is no place that both is
    a word boundary and reads like the first code unit.  [before] is the
    code unit of the word that precedes [rest]. *)
Fixpoint inner_free (first before : N) (rest : jsstring) : bool :=
  match rest with
  | [] => true
  | p :: rest' =>
      negb (xorb (is_word_char before) (is_word_char p)
            && (canonicalize p =? canonicalize first)%N)
      && inner_free first p rest'
  end.

Definition apart (word : jsstring) : bool :=
  match word with
  | [] => false
  | first :: rest => inner_free first first rest
  end.

(** At the [k] positions of [s] that follow a code unit [before] no attempt
    for [word] succeeds. *)
Fixpoint quiet (word : jsstring) (before : option N) (s : jsstring)
  (k : nat) {struct k} : Prop :=
  match k, s with
  | S k', c :: s' =>
      match_here word before s = false /\ quiet word (Some c) s' k'
  | _, _ => True
  end.

End Scan.

(** ** The scenarios of the specification *)

Module Scenario.

(** The transcript of the scored scenario. *)
Definition results : jsstring :=
  lit "I achieved great results and led the team to success".

(** A transcript with [um] twice and [uh] twice; [album] and [likely] hold
    a filler without being one. *)
Definition hesitant : jsstring :=
  lit "Um, I think uh we um shipped the album and uh, likely, it worked".

(** An [eye_contact] event whose score is an object with a member
    [toString]: the text [{"type":"eye_contact","score":{"toString":0}}]. *)
Definition unprintable_score : Session.inbound :=
  Session.ev "eye_contact"
    [(lit "score", Session.JObj [(lit "toString", Session.JNum 0)])].

(** A session in progress: a fragment, two gaze samples and a face. *)
Definition in_progress : Session.world :=
  Session.run
    [(1000, Session.ev_transcript (lit "hello world"));
     (1500, Session.ev_eye_contact 90);
     (1600, Session.ev "face_detected" []);
     (2000, Session.ev_eye_contact 75)]
    (Session.connect 0).

(** Two faces in a frame of 640 by 480: one at the centre, one to the
    left. *)
Definition centred : Gaze.box :=
  {| Gaze.x := 270; Gaze.y := 190; Gaze.width := 100; Gaze.height := 100 |}.

Definition off_centre : Gaze.box :=
  {| Gaze.x := 200; Gaze.y := 190; Gaze.width := 100; Gaze.height := 100 |}.



(** A face in a frame of 848 by 480, left of the centre by a little less
    than the tolerance 127.2. *)
#[warnings="-inexact-float"]
Definition wide_frame_face : Gaze.box :=
  {| Gaze.x := 246.8; Gaze.y := 190; Gaze.width := 100; Gaze.height := 100 |}.

End Scenario.

(** ** The rest of the client: recognition results, the clock, the
       indicator, the question *)

Module Client.

Open Scope string_scope.
Open Scope Z_scope.

(** [event.results[i]]: the transcript of its first alternative and
    [isFinal]. *)
Record recognition_result := { heard : jsstring; isFinal : bool }.

(** The loop of [recognition.onresult]: [finalTranscript] and
    [newInterimTranscript] after the results given. *)
Fixpoint gather (results : list recognition_result)
  (finalTranscript newInterimTranscript : jsstring) : jsstring * jsstring :=
  match results with
  | [] => (finalTranscript, newInterimTranscript)
  | r :: rest =>
      if isFinal r
      then gather rest (finalTranscript ++ heard r ++ [32%N])%list
                  newInterimTranscript
      else gather rest finalTranscript (newInterimTranscript ++ heard r)%list
  end.

(** A string is truthy when it is not empty. *)
Definition truthy (s : jsstring) : bool :=
  match s with [] => false | _ :: _ => true end.

(** What the handler reads and writes of the component: the transcript and
    the interim transcript on display, and [lastSpeechTime.current]. *)
Record display := {
  shown : jsstring;
  interimTranscript : jsstring;
  lastSpeechTime : option Z
}.

(** [recognition.onresult]: the display it leaves and the messages it
    sends, in order.  [socket_open] is
    [ws && ws.readyState === WebSocket.OPEN]; a message is given as the
    server decodes it. *)
Definition onresult (now : Z) (socket_open : bool) (resultIndex : nat)
  (results : list recognition_result) (d : display)
  : display * list Session.inbound :=
  let (finalTranscript, newInterimTranscript) :=
    gather (skipn resultIndex results) [] [] in
  let sends_final := truthy finalTranscript && socket_open in
  ({| shown :=
        if sends_final then (shown d ++ finalTranscript)%list else shown d;
      interimTranscript :=
        if sends_final then []
        else if truthy newInterimTranscript then newInterimTranscript
        else interimTranscript d;
      lastSpeechTime :=
        if truthy finalTranscript || truthy newInterimTranscript
        then Some now else lastSpeechTime d |},
   ((if truthy newInterimTranscript && socket_open
     then [Session.ev "interim_transcript"
             [(lit "transcript", Session.JStr newInterimTranscript)]]
     else [])
    ++ (if sends_final
        then [Session.ev_transcript (trim finalTranscript)]
        else []))%list).

(** [s.padStart(2, '0')] *)
Definition padStart2 (s : string) : string :=
  match String.length s with
  | 0%nat => "00" ++ s
  | 1%nat => "0" ++ s
  | _ => s
  end.

(** [formatTime], on a whole number of seconds. *)
Definition formatTime (seconds : Z) : string :=
  let mins := seconds / 60 in
  let secs := Z.rem seconds 60 in
  padStart2 (show mins) ++ ":" ++ padStart2 (show secs).

(** The class of the eye contact indicator:
    [eyeContactScore > 70 ? 'text-green-400' : eyeContactScore > 40 ?
    'text-yellow-400' : 'text-red-400']. *)
Inductive colour := green | yellow | red.

Definition indicator (eyeContactScore : Z) : colour :=
  if 70 <? eyeContactScore then green
  else if 40 <? eyeContactScore then yellow
  else red.

Definition interviewQuestions : list string :=
  ["Tell me about yourself";
   "What are your greatest strengths?";
   "What is your greatest weakness?";
   "Why do you want to work here?";
   "Describe a challenging situation and how you handled it";
   "Where do you see yourself in 5 years?";
   "Why should we hire you?";
   "Tell me about a time you failed and what you learned";
   "How do you handle stress and pressure?";
   "What is your biggest achievement?"].

(** [interviewQuestions[Math.floor(random * interviewQuestions.length)]],
    [random] being what [Math.random()] returns; [None] is [undefined]. *)
Definition question (random : Q) : option string :=
  let randomIndex :=
    Qfloor (random * inject_Z (Z.of_nat (List.length interviewQuestions))) in
  if randomIndex <? 0 then None
  else nth_error interviewQuestions (Z.to_nat randomIndex).

(** What the other functions of the client send: [detectEyeContact] the
    score of a tick, [startRecording] the start event with the question,
    [stopRecording] the stop event; each only on an open socket. *)
Definition detectEyeContact_sends (videoWidth videoHeight : float)
  (socket_open : bool) (detections : list Gaze.box) : list Session.inbound :=
  match Gaze.detectEyeContact videoWidth videoHeight socket_open detections
  with
  | Some t =>
      match Gaze.sent_score t with
      | Some score => [Session.ev_eye_contact score]
      | None => []
      end
  | None => []
  end.

Definition startRecording_sends (socket_open : bool) (question : string)
  : list Session.inbound :=
  if socket_open then [Session.ev_start (lit question)] else [].

Definition stopRecording_sends (socket_open : bool) : list Session.inbound :=
  if socket_open then [Session.ev_stop] else [].

(** The messages that some call of a function of the client sends. *)
Inductive client_message (m : Session.inbound) : Prop :=
| from_onresult (now : Z) (socket_open : bool) (resultIndex : nat)
    (results : list recognition_result) (d : display) :
    In m (snd (onresult now socket_open resultIndex results d)) ->
    client_message m
| from_detectEyeContact (videoWidth videoHeight : float)
    (socket_open : bool)
    (detections : list Gaze.box) :
    In m (detectEyeContact_sends videoWidth videoHeight socket_open
                                 detections) ->
    client_message m
| from_startRecording (socket_open : bool) (question : string) :
    In m (startRecording_sends socket_open question) -> client_message m
| from_stopRecording (socket_open : bool) :
    In m (stopRecording_sends socket_open) -> client_message m.

End Client.

(** ** The events of the protocol *)

Module Events.

Import Session.

(** The messages of the protocol. *)
Inductive event :=
| Start (question : jsstring)
| Fragment (fragment : jsstring)
| Interim (fragment : jsstring)
| Gaze (score : Z)
| Face
| Stop.

Definition encode (e : event) : inbound :=
  match e with
  | Start question => ev_start question
  | Fragment fragment => ev_transcript fragment
  | Interim fragment =>
      ev "interim_transcript" [(lit "transcript", JStr fragment)]
  | Gaze score => ev_eye_contact score
  | Face => ev "face_detected" []
  | Stop => ev_stop
  end.

(** [data.type], read without the [TypeError] of [null]. *)
Definition type_of (data : json) : value :=
  match data with
  | JObj fields => own (lit "type") fields
  | _ => None
  end.

(** The types the handler has a branch for. *)
Definition known_types : list string :=
  ["transcript"; "eye_contact"; "face_detected"; "start"; "stop"]%string.

Definition encode_all (timed : list (Z * event)) : list (Z * inbound) :=
  map (fun p => (fst p, encode (snd p))) timed.

Definition is_start (e : Z * event) : bool :=
  match snd e with Start _ => true | _ => false end.

(** The time of the last [Start] of a list of events, if it has one. *)
Fixpoint last_start (timed : list (Z * event)) : option Z :=
  match timed with
  | [] => None
  | e :: rest =>
      match last_start rest with
      | Some t => Some t
      | None => if is_start e then Some (fst e) else None
      end
  end.

(** The events that follow the last [Start]; all of them when there is
    none. *)
Fixpoint since_start (timed : list (Z * event)) : list event :=
  match timed with
  | [] => []
  | e :: rest =>
      if existsb is_start rest then since_start rest
      else if is_start e then map snd rest
      else snd e :: map snd rest
  end.

Fixpoint fragments_of (events : list event) : list jsstring :=
  match events with
  | [] => []
  | Fragment f :: rest => f :: fragments_of rest
  | _ :: rest => fragments_of rest
  end.

Fixpoint gazes_of (events : list event) : list Z :=
  match events with
  | [] => []
  | Gaze z :: rest => z :: gazes_of rest
  | _ :: rest => gazes_of rest
  end.

Fixpoint faces_of (events : list event) : Z :=
  match events with
  | [] => 0
  | Face :: rest => 1 + faces_of rest
  | _ :: rest => faces_of rest
  end.

(** The session a list of events leaves, told from the events alone: the
    fragments, the samples and the faces since the last [Start], on top of
    the session [s] when no [Start] came. *)
Definition summary (timed : list (Z * event)) (s : sessionData)
  : sessionData :=
  let base :=
    match last_start timed with Some t => fresh t | None => s end in
  let recent := since_start timed in
  {| transcript := fold_left appended (fragments_of recent) (transcript base);
     startTime := startTime base;
     eyeContactScores :=
       (eyeContactScores base
        ++ map (fun z => sample (inject_Z z)) (gazes_of recent))%list;
     facesDetected := facesDetected base + faces_of recent |}.

End Events.

(** ** Further quantities the properties name *)

Module Measure.

Open Scope Z_scope.

(** Whether a text is empty or starts with white space. *)
Definition leading (s : jsstring) : bool :=
  match s with [] => true | c :: _ => is_space c end.

(** A text that is not empty and neither starts nor ends with white
    space. *)
Definition clean_start (s : jsstring) : bool :=
  match s with [] => false | c :: _ => negb (is_space c) end.

Definition clean_end (s : jsstring) : bool :=
  negb (Spec.ends_in_space true s).

(** The fragments of a list, with one space between two of them. *)
Fixpoint spaced (first : jsstring) (rest : list jsstring) : jsstring :=
  match rest with
  | [] => first
  | f :: rest' => (first ++ 32%N :: spaced f rest')%list
  end.

(** A recognition event: the time it is handled at, its [resultIndex] and
    its results. *)
Definition heard_event : Type := Z * nat * list Client.recognition_result.

Definition finals_of (e : heard_event) : list Client.recognition_result :=
  filter Client.isFinal (skipn (snd (fst e)) (snd e)).

(** The messages a client with an open socket sends for a list of
    recognition events, each with its time. *)
Fixpoint forwarded (events : list heard_event) (d : Client.display)
  : list (Z * Session.inbound) :=
  match events with
  | [] => []
  | e :: rest =>
      let r := Client.onresult (fst (fst e)) true (snd (fst e)) (snd e) d in
      (map (pair (fst (fst e))) (snd r) ++ forwarded rest (fst r))%list
  end.

(** The words of a list of results, and of the final results of a list of
    recognition events. *)
Definition result_words (results : list Client.recognition_result) : nat :=
  fold_right (fun r m => (Spec.words (Client.heard r) + m)%nat) 0%nat results.

Definition heard_words (events : list heard_event) : nat :=
  fold_right (fun e n => (result_words (finals_of e) + n)%nat) 0%nat events.

(** The final results of an event as [finalTranscript] holds them, each
    followed by a space. *)
Definition final_text (results : list Client.recognition_result) : jsstring :=
  flat_map (fun r => (Client.heard r ++ [32%N])%list) results.

(** The fragments the events of a list make the client send. *)
Definition sent_fragments (events : list heard_event) : list jsstring :=
  flat_map
    (fun e =>
       match finals_of e with
       | [] => []
       | finals => [trim (final_text finals)]
       end)
    events.

(** The final results of the last event that has one. *)
Fixpoint last_finals (events : list heard_event)
  : list Client.recognition_result :=
  match events with
  | [] => []
  | e :: rest =>
      match last_finals rest with
      | [] => finals_of e
      | later => later
      end
  end.

(** The first 14 bytes of a suggestion: they tell its rubric. *)
Definition key (text : string) : string := String.substring 0 14 text.

Definition keys_of_rubric : list (list string) :=
  [ [key "✅ Excellent! No filler words detected";
     key "⚠️ Reduce filler words (found ";
     key "❌ Too many filler words ("];
    [key "✅ Perfect pace: ";
     key "⚠️ Speaking too slowly (";
     key "⚠️ Speaking too fast ("];
    [key "✅ Excellent eye contact maintained";
     key "⚠️ Maintain more eye contact (";
     key "❌ Poor eye contact ("];
    [key "⚠️ Response too short - Provide more details";
     key "⚠️ Response too long - Be more concise";
     key "✅ Good response length"];
    [key "✅ Great use of action verbs (";
     key "⚠️ Use more action verbs (";
     key "❌ Include action verbs (achieved, led, managed, etc.)"] ]%string.

(** The rubric a suggestion comes from, 0 to 4; 5 for any other text. *)
Fixpoint rubric_from (rubrics : list (list string)) (k : string) : nat :=
  match rubrics with
  | [] => 0%nat
  | keys :: rest =>
      if existsb (String.eqb k) keys then 0%nat else S (rubric_from rest k)
  end.

Definition rubric_of (text : string) : nat :=
  rubric_from keys_of_rubric (key text).

(** The digit [k], for [0 <= k <= 9]. *)
Definition digit (k : Z) : ascii := ascii_of_nat (48 + Z.to_nat k).

(** The display [MM:SS] of a number of seconds below 6000, digit by
    digit. *)
Definition clock (n : Z) : string :=
  String (digit (n / 600))
    (String (digit (n / 60 mod 10))
       (String ":"%char
          (String (digit (n mod 60 / 10))
             (String (digit (n mod 10)) EmptyString)))).

(** The seconds a display [MM:SS] stands for. *)
Definition value_of (c : ascii) : Z := Z.of_nat (nat_of_ascii c) - 48.

Definition seconds_shown (display : string) : option Z :=
  match display with
  | String a (String b (String _ (String c (String d EmptyString)))) =>
      Some ((value_of a * 10 + value_of b) * 60 + value_of c * 10 + value_of d)
  | _ => None
  end.

(** [formatTime] writes the display of [n] seconds, which reads back as
    [n]. *)
Definition clock_ok (n : nat) : bool :=
  String.eqb (Client.formatTime (Z.of_nat n)) (clock (Z.of_nat n))
  && match seconds_shown (Client.formatTime (Z.of_nat n)) with
     | Some m => m =? Z.of_nat n
     | None => false
     end.

End Measure.

(** ** Properties of the analyzer *)

Section AnalyzerFacts.

Import Analyzer Spec Scan Scenario.

Open Scope string_scope.
Open Scope Z_scope.

Lemma count_matches_from (lexicon : list string) (transcript : jsstring)
  (n : Z) :
  0 <= n ->
  0 <= fold_left (fun count word => count + match_count word transcript)
                 lexicon n.
Proof.
  revert n. induction lexicon as [|word lexicon IH]; intros n Hn; simpl.
  - exact Hn.
  - apply IH. unfold match_count. lia.
Qed.

Lemma fillerCount_nonneg (transcript : jsstring) : 0 <= fillerCount transcript.
Proof. apply count_matches_from. lia. Qed.

Lemma actionVerbCount_nonneg (transcript : jsstring) :
  0 <= actionVerbCount transcript.
Proof. apply count_matches_from. lia. Qed.

(** *** The scan of the regular expressions *)

Lemma canonicalize_word_char (c p : N) :
  canonicalize c = canonicalize p -> is_word_char c = is_word_char p.
Proof.
  unfold canonicalize, is_word_char. intros E.
  destruct (97 <=? c)%N eqn:C1; destruct (c <=? 122)%N eqn:C2;
    destruct (97 <=? p)%N eqn:P1; destruct (p <=? 122)%N eqn:P2;
    cbn [andb] in E;
    repeat match goal with
           | H : (_ <=? _)%N = true |- _ => apply N.leb_le in H
           | H : (_ <=? _)%N = false |- _ => apply N.leb_gt in H
           end;
    try (subst; reflexivity);
    repeat match goal with
           | |- context [(?a <=? ?b)%N] =>
               let L := fresh in
               destruct (a <=? b)%N eqn:L;
               [apply N.leb_le in L | apply N.leb_gt in L]
           | |- context [(?a =? ?b)%N] =>
               let L := fresh in
               destruct (a =? b)%N eqn:L;
               [apply N.eqb_eq in L | apply N.eqb_neq in L]
           end; cbn; try reflexivity; lia.
Qed.

(** After the code units of an occurrence have been read, the positions
    inside it start no occurrence. *)
Lemma quiet_inside (first : N) (tail rest s : jsstring) (p c : N)
  (last : option N) (r : option N * jsstring) :
  canonicalize c = canonicalize p ->
  inner_free first p rest = true ->
  literal_ci rest s last = Some r ->
  quiet (first :: tail) (Some c) s (List.length rest).
Proof.
  revert s p c last.
  induction rest as [|q rest IH]; intros s p c last Ec Hfree Hlit.
  - exact I.
  - destruct s as [|d s]; [discriminate Hlit|].
    cbn [literal_ci] in Hlit.
    destruct (canonicalize d =? canonicalize q)%N eqn:Ed; [|discriminate].
    apply N.eqb_eq in Ed.
    cbn [inner_free] in Hfree. apply andb_true_iff in Hfree.
    destruct Hfree as [Hhere Hfree].
    cbn [List.length quiet]. split.
    + unfold match_here, boundary. cbn [hd_error word_at literal_ci].
      rewrite (canonicalize_word_char c p Ec),
        (canonicalize_word_char d q Ed), Ed.
      destruct (xorb (is_word_char p) (is_word_char q)); [|reflexivity].
      cbn [andb negb] in Hhere |- *.
      apply negb_true_iff in Hhere. rewrite Hhere. reflexivity.
    + exact (IH s q d (Some d) Ed Hfree Hlit).
Qed.

Lemma quiet_after_match (word : jsstring) (before : option N) (c : N)
  (s : jsstring) :
  apart word = true ->
  match_here word before (c :: s) = true ->
  quiet word (Some c) s (Nat.pred (List.length word)).
Proof.
  destruct word as [|first tail]; [discriminate|].
  intros Hfree Hm. unfold match_here in Hm.
  apply andb_true_iff in Hm. destruct Hm as [_ Hm].
  cbn [literal_ci] in Hm.
  destruct (canonicalize c =? canonicalize first)%N eqn:Ec; [|discriminate].
  apply N.eqb_eq in Ec.
  destruct (literal_ci tail s (Some c)) as [r|] eqn:Hlit; [|discriminate].
  exact (quiet_inside first tail tail s first c (Some c) r Ec Hfree Hlit).
Qed.

(** The scan that jumps over each match counts every occurrence. *)
Lemma match_scan_occurrences (word : jsstring) :
  apart word = true ->
  forall (s : jsstring) (before : option N) (skip : nat),
    quiet word before s skip ->
    match_scan word before skip s = occurrences_scan word before s.
Proof.
  intros Hfree. induction s as [|c s IH]; intros before skip Hq.
  - reflexivity.
  - cbn [match_scan occurrences_scan]. destruct skip as [|k].
    + destruct (match_here word before (c :: s)) eqn:Hm.
      * rewrite (IH (Some c) _ (quiet_after_match word before c s Hfree Hm)).
        reflexivity.
      * apply (IH (Some c) 0%nat). exact I.
    + cbn [quiet] in Hq. destruct Hq as [Hm Hq].
      rewrite Hm. apply (IH (Some c) k Hq).
Qed.

Lemma match_count_occurrences (word : string) (s : jsstring) :
  apart (lit word) = true -> match_count word s = occurrences word s.
Proof.
  intros Hfree. unfold match_count, occurrences. f_equal.
  apply (match_scan_occurrences (lit word) Hfree). exact I.
Qed.

Lemma lexicons_apart :
  Forall (fun word => apart (lit word) = true) (fillerWords ++ actionVerbs).
Proof. repeat constructor. Qed.

Lemma count_matches_occurrences (lexicon : list string) (s : jsstring) :
  Forall (fun word => apart (lit word) = true) lexicon ->
  count_matches lexicon s = total_occurrences lexicon s.
Proof.
  intros H. unfold count_matches.
  assert (G : forall n,
             fold_left (fun count word => count + match_count word s) lexicon n
             = n + total_occurrences lexicon s).
  { induction H as [|word lexicon Hw _ IH]; intros n; simpl.
    - lia.
    - rewrite IH, (match_count_occurrences word s Hw). lia. }
  rewrite G. lia.
Qed.

Lemma fillerCount_occurrences (transcript : jsstring) :
  fillerCount transcript = total_occurrences fillerWords transcript.
Proof.
  apply count_matches_occurrences.
  pose proof lexicons_apart as H. apply Forall_app in H. apply H.
Qed.

Lemma actionVerbCount_occurrences (transcript : jsstring) :
  actionVerbCount transcript = total_occurrences actionVerbs transcript.
Proof.
  apply count_matches_occurrences.
  pose proof lexicons_apart as H. apply Forall_app in H. apply H.
Qed.

(** *** Whole words *)

(** The class [\w] holds the word characters and nothing else. *)
Lemma is_word_char_character (c : N) : is_word_char c = word_character c.
Proof.
  destruct (N.ltb_spec c 123) as [small|large].
  - assert (T : forallb (fun n => Bool.eqb (is_word_char (N.of_nat n))
                                    (word_character (N.of_nat n)))
                        (seq 0 123) = true) by (vm_compute; reflexivity).
    rewrite forallb_forall in T. specialize (T (N.to_nat c)).
    replace (N.of_nat (N.to_nat c)) with c in T by lia.
    apply eqb_prop. apply T. apply in_seq. lia.
  - unfold is_word_char.
    rewrite (proj2 (N.leb_gt c 90)), (proj2 (N.leb_gt c 122)),
      (proj2 (N.leb_gt c 57)), (proj2 (N.eqb_neq c 95)) by lia.
    rewrite !andb_false_r. cbn [orb]. symmetry.
    apply not_true_iff_false. unfold word_character. intros E.
    apply existsb_exists in E. destruct E as [k [I E]].
    apply N.eqb_eq in E. subst k.
    assert (T : forallb (fun k => (k <=? 122)%N) word_characters = true)
      by (vm_compute; reflexivity).
    rewrite forallb_forall in T. specialize (T c I).
    apply N.leb_le in T. lia.
Qed.

(** Canonicalize tells two code units apart exactly when their lower cases
    differ. *)
Lemma canonicalize_lower (c p : N) :
  (canonicalize c =? canonicalize p)%N = (lower p =? lower c)%N.
Proof.
  apply eq_true_iff_eq. rewrite !N.eqb_eq. unfold canonicalize, lower.
  destruct (N.leb_spec 97 c), (N.leb_spec c 122), (N.leb_spec 97 p),
    (N.leb_spec p 122), (N.leb_spec 65 c), (N.leb_spec c 90),
    (N.leb_spec 65 p), (N.leb_spec p 90);
    cbn [andb]; lia.
Qed.

Lemma literal_ci_reads (word : jsstring) :
  forall (s : jsstring) (before : option N),
    match literal_ci word s before with Some _ => true | None => false end
    = reads word (firstn (List.length word) s).
Proof.
  induction word as [|p word IH]; intros s before.
  - reflexivity.
  - destruct s as [|c s]; [reflexivity|].
    cbn [literal_ci List.length firstn reads].
    rewrite canonicalize_lower.
    destruct (lower p =? lower c)%N; [apply IH | reflexivity].
Qed.

Lemma last_nonempty (A : Type) (l : list A) (a d e : A) :
  last (a :: l) d = last (a :: l) e.
Proof.
  revert a. induction l as [|b l IH]; intros a.
  - reflexivity.
  - change (last (a :: b :: l) d) with (last (b :: l) d).
    change (last (a :: b :: l) e) with (last (b :: l) e). apply IH.
Qed.

(** Where the literal has been read: the rest of the text, and the class
    of the last code unit read, which is that of the last code unit of the
    word. *)
Lemma literal_ci_end (word : jsstring) :
  forall (s rest : jsstring) (before last_read : option N),
    literal_ci word s before = Some (last_read, rest) ->
    rest = skipn (List.length word) s
    /\ word_at last_read
       = match word with
         | [] => word_at before
         | p :: _ => is_word_char (last word p)
         end.
Proof.
  induction word as [|p word IH]; intros s rest before last_read H.
  - cbn in H. injection H as E1 E2. subst. split; reflexivity.
  - destruct s as [|c s]; [discriminate H|].
    cbn [literal_ci] in H.
    destruct (canonicalize c =? canonicalize p)%N eqn:E; [|discriminate H].
    apply N.eqb_eq in E.
    destruct (IH s rest (Some c) last_read H) as [R W].
    split; [exact R|]. rewrite W.
    destruct word as [|q word].
    + cbn. apply canonicalize_word_char. exact E.
    + change (last (p :: q :: word) p) with (last (q :: word) p).
      f_equal. apply last_nonempty.
Qed.

Lemma hd_error_skipn (A : Type) (n : nat) (l : list A) :
  hd_error (skipn n l) = nth_error l n.
Proof.
  revert l. induction n as [|n IH]; intros [|a l]; try reflexivity.
  cbn. apply IH.
Qed.

(** An attempt of the matcher succeeds exactly where the word stands
    between two code units that are no word characters: [\b] on either
    side of a word that begins and ends with a word character. *)
Lemma match_here_stands (word : jsstring) (before : option N)
  (s : jsstring) :
  edged word = true ->
  match_here word before s
  = outside before && reads word (firstn (List.length word) s)
    && outside (nth_error s (List.length word)).
Proof.
  intros Hedge. destruct word as [|first word]; [discriminate|].
  cbn [edged] in Hedge. apply andb_true_iff in Hedge.
  destruct Hedge as [Hfirst Hlast].
  rewrite <- is_word_char_character in Hfirst, Hlast.
  assert (O : forall c, outside c = negb (word_at c)).
  { intros [u|]; cbn; [rewrite is_word_char_character|]; reflexivity. }
  unfold match_here.
  rewrite <- (literal_ci_reads (first :: word) s before).
  destruct (literal_ci (first :: word) s before) as [[last_read rest]|] eqn:L.
  - destruct (literal_ci_end _ _ _ _ _ L) as [R W]. rewrite Hlast in W.
    destruct s as [|c s]; [discriminate L|].
    cbn [literal_ci] in L.
    destruct (canonicalize c =? canonicalize first)%N eqn:E; [|discriminate L].
    apply N.eqb_eq in E.
    unfold boundary. rewrite W. cbn [hd_error word_at].
    rewrite (canonicalize_word_char c first E), Hfirst.
    rewrite R, hd_error_skipn, !O.
    rewrite xorb_true_r, andb_true_r. cbn [xorb]. reflexivity.
  - rewrite !andb_false_r. reflexivity.
Qed.

(** Trying every position in turn counts the places where the word
    stands. *)
Lemma occurrences_scan_stands (word : jsstring) :
  edged word = true ->
  forall (rest before : jsstring),
    occurrences_scan word
      (before_at (before ++ rest)%list (List.length before)) rest
    = List.length
        (filter (stands_at word (before ++ rest)%list)
                (seq (List.length before) (List.length rest))).
Proof.
  intros Hedge. induction rest as [|c rest IH]; intros before.
  - reflexivity.
  - cbn [occurrences_scan List.length seq filter].
    assert (E : match_here word
                  (before_at (before ++ c :: rest)%list (List.length before))
                  (c :: rest)
                = stands_at word (before ++ c :: rest)%list (List.length before)).
    { rewrite (match_here_stands _ _ _ Hedge). unfold stands_at.
      rewrite skipn_app, skipn_all, Nat.sub_diag. cbn [app skipn].
      rewrite nth_error_app2 by lia.
      replace (List.length before + List.length word - List.length before)%nat
        with (List.length word) by lia.
      reflexivity. }
    rewrite E.
    specialize (IH (before ++ [c])%list).
    rewrite <- app_assoc in IH. cbn [app] in IH.
    rewrite length_app in IH. cbn [List.length] in IH.
    replace (List.length before + 1)%nat with (S (List.length before)) in IH
      by lia.
    cbn [before_at] in IH.
    rewrite nth_error_app2, Nat.sub_diag in IH by lia.
    cbn [nth_error] in IH. rewrite IH.
    destruct (stands_at word (before ++ c :: rest)%list (List.length before));
      reflexivity.
Qed.

Lemma occurrences_whole_word (word : string) (s : jsstring) :
  edged (lit word) = true ->
  occurrences word s = whole_word_occurrences word s.
Proof.
  intros Hedge. unfold occurrences, whole_word_occurrences. f_equal.
  exact (occurrences_scan_stands (lit word) Hedge s []).
Qed.

Lemma lexicons_edged :
  Forall (fun word => edged (lit word) = true) (fillerWords ++ actionVerbs).
Proof. repeat constructor. Qed.

Lemma total_occurrences_whole_words (lexicon : list string) (s : jsstring) :
  Forall (fun word => edged (lit word) = true) lexicon ->
  total_occurrences lexicon s = whole_words lexicon s.
Proof.
  intros H. induction H as [|word lexicon Hw _ IH].
  - reflexivity.
  - cbn [total_occurrences whole_words fold_right].
    unfold total_occurrences, whole_words in IH.
    rewrite IH, (occurrences_whole_word word s Hw). reflexivity.
Qed.

(** What the analyzer counts for its two lexicons is the whole-word
    occurrences of their words. *)
Lemma fillerCount_whole_words (transcript : jsstring) :
  fillerCount transcript = whole_words fillerWords transcript.
Proof.
  rewrite fillerCount_occurrences. apply total_occurrences_whole_words.
  pose proof lexicons_edged as H. apply Forall_app in H. apply H.
Qed.

Lemma actionVerbCount_whole_words (transcript : jsstring) :
  actionVerbCount transcript = whole_words actionVerbs transcript.
Proof.
  rewrite actionVerbCount_occurrences. apply total_occurrences_whole_words.
  pose proof lexicons_edged as H. apply Forall_app in H. apply H.
Qed.

(** *** The rubrics *)

(** What each rubric adds to the score is the bonus of the table. *)
Lemma rubric_filler_score (transcript : jsstring) (t : tally) :
  score (rubric_filler transcript t)
  = score t + filler_delta (fillerCount transcript).
Proof.
  pose proof (fillerCount_nonneg transcript) as H.
  unfold rubric_filler, filler_delta.
  destruct (fillerCount transcript =? 0) eqn:E0; simpl; [lia|].
  destruct (fillerCount transcript <=? 2) eqn:E2; simpl.
  - replace (1 <=? fillerCount transcript) with true by lia. reflexivity.
  - rewrite andb_false_r. lia.
Qed.

Lemma rubric_pace_score (transcript : jsstring) (duration : Q) (t : tally) :
  score (rubric_pace transcript duration t)
  = score t + pace_delta (wpm transcript duration).
Proof.
  unfold rubric_pace, pace_delta.
  destruct ((120 <=? wpm transcript duration)
            && (wpm transcript duration <=? 150)); simpl; [lia|].
  destruct (wpm transcript duration <? 80); simpl; [lia|].
  destruct (180 <? wpm transcript duration); simpl; lia.
Qed.

Lemma rubric_gaze_score (eyeContactScore : Z) (t : tally) :
  score (rubric_gaze eyeContactScore t)
  = score t + gaze_delta eyeContactScore.
Proof.
  unfold rubric_gaze, gaze_delta.
  destruct (80 <=? eyeContactScore) eqn:E80; simpl; [lia|].
  destruct (60 <=? eyeContactScore) eqn:E60; simpl.
  - replace (eyeContactScore <? 80) with true by lia. reflexivity.
  - lia.
Qed.

Lemma rubric_length_score (transcript : jsstring) (t : tally) :
  score (rubric_length transcript t)
  = score t + length_delta (wordCount transcript).
Proof.
  unfold rubric_length, length_delta.
  destruct (wordCount transcript <? 50); simpl; [lia|].
  destruct (500 <? wordCount transcript); simpl; lia.
Qed.

Lemma rubric_verbs_score (transcript : jsstring) (t : tally) :
  score (rubric_verbs transcript t)
  = score t + verbs_delta (actionVerbCount transcript).
Proof.
  unfold rubric_verbs, verbs_delta.
  destruct (3 <=? actionVerbCount transcript) eqn:E3; simpl; [lia|].
  destruct (0 <? actionVerbCount transcript) eqn:E0; simpl.
  - replace (actionVerbCount transcript <? 3) with true by lia. reflexivity.
  - lia.
Qed.

Lemma assess_score (transcript : jsstring) (duration : Q)
  (eyeContactScore : Z) :
  score (assess transcript duration eyeContactScore)
  = rubric_sum (fillerCount transcript) (wpm transcript duration)
               eyeContactScore (wordCount transcript)
               (actionVerbCount transcript).
Proof.
  unfold assess, rubric_sum.
  rewrite rubric_verbs_score, rubric_length_score, rubric_gaze_score,
    rubric_pace_score, rubric_filler_score.
  reflexivity.
Qed.

Lemma deltas_nonneg (f w g n v : Z) :
  0 <= filler_delta f /\ 0 <= pace_delta w /\ 0 <= gaze_delta g
  /\ 0 <= length_delta n /\ 0 <= verbs_delta v.
Proof.
  unfold filler_delta, pace_delta, gaze_delta, length_delta, verbs_delta.
  repeat split;
    repeat match goal with
           | |- context [if ?b then _ else _] => destruct b
           end; lia.
Qed.

(** C1: for every transcript, duration > 0, average gaze score and face
    count, the returned score is the base score 6 plus the five rubric
    bonuses, clamped to [1,10]: it is exactly 10 when that sum exceeds 10
    and exactly 1 when it is below 1. *)
Theorem score_is_clamped_rubric_sum (transcript : jsstring) (duration : Q)
  (avgGazeScore faceDetectionCount : Z) :
  (0 < duration)%Q ->
  let sum :=
    rubric_sum (fillerCount transcript) (wpm transcript duration)
               avgGazeScore (wordCount transcript)
               (actionVerbCount transcript) in
  let result :=
    analyzeTranscript transcript duration avgGazeScore faceDetectionCount in
  a_score result = Z.min 10 (Z.max 1 sum)
  /\ (10 < sum -> a_score result = 10)
  /\ (sum < 1 -> a_score result = 1).
Proof.
  intros _ sum result.
  assert (E : a_score result = Z.min 10 (Z.max 1 sum)).
  { subst sum result. unfold analyzeTranscript. simpl.
    rewrite assess_score. reflexivity. }
  rewrite E. repeat split; lia.
Qed.

Lemma score_is_clamped_rubric_sum_witness :
  (0 < 45 # 10)%Q
  /\ a_score (analyzeTranscript results (45 # 10) 85 3) = 10.
Proof.
  split; [reflexivity|].
  destruct (score_is_clamped_rubric_sum results (45 # 10) 85 3 eq_refl)
    as [_ [above _]].
  apply above. vm_compute. reflexivity.
Defined.

(** C9: for every transcript, duration > 0, average gaze score and face
    count, the returned score lies in [6,10]: the base is 6 and no rubric
    subtracts, so the lower bound 1 of the clamp is never reached. *)
Theorem score_at_least_base (transcript : jsstring) (duration : Q)
  (avgGazeScore faceDetectionCount : Z) :
  (0 < duration)%Q ->
  6 <= a_score (analyzeTranscript transcript duration avgGazeScore
                                  faceDetectionCount) <= 10
  /\ 6 <= score (assess transcript duration avgGazeScore).
Proof.
  intros _. unfold analyzeTranscript. simpl.
  rewrite assess_score. unfold rubric_sum, clamp.
  pose proof (deltas_nonneg (fillerCount transcript)
                (wpm transcript duration) avgGazeScore
                (wordCount transcript) (actionVerbCount transcript)).
  lia.
Qed.

Lemma score_at_least_base_witness :
  (0 < 6)%Q
  /\ 6 <= a_score (analyzeTranscript (lit "um so uh I um think uh yes")
                                     6 50 3) <= 10.
Proof.
  split; [reflexivity|].
  apply (score_at_least_base (lit "um so uh I um think uh yes") 6 50 3).
  reflexivity.
Defined.

(** A rubric only appends to the suggestions, and all but the pace rubric
    append one text. *)
Lemma rubric_filler_says (transcript : jsstring) :
  exists text, forall t,
    suggestions (rubric_filler transcript t) = (suggestions t ++ [text])%list.
Proof.
  unfold rubric_filler.
  destruct (fillerCount transcript =? 0); [|destruct (fillerCount transcript <=? 2)];
    eexists; intros t; reflexivity.
Qed.

Lemma rubric_gaze_says (eyeContactScore : Z) :
  exists text, forall t,
    suggestions (rubric_gaze eyeContactScore t)
    = (suggestions t ++ [text])%list.
Proof.
  unfold rubric_gaze.
  destruct (80 <=? eyeContactScore); [|destruct (60 <=? eyeContactScore)];
    eexists; intros t; reflexivity.
Qed.

Lemma rubric_length_says (transcript : jsstring) :
  exists text, forall t,
    suggestions (rubric_length transcript t) = (suggestions t ++ [text])%list.
Proof.
  unfold rubric_length.
  destruct (wordCount transcript <? 50); [|destruct (500 <? wordCount transcript)];
    eexists; intros t; reflexivity.
Qed.

Lemma rubric_verbs_says (transcript : jsstring) :
  exists text, forall t,
    suggestions (rubric_verbs transcript t) = (suggestions t ++ [text])%list.
Proof.
  unfold rubric_verbs.
  destruct (3 <=? actionVerbCount transcript);
    [|destruct (0 <? actionVerbCount transcript)];
    eexists; intros t; reflexivity.
Qed.

Lemma rubric_pace_says (transcript : jsstring) (duration : Q) :
  if pace_speaks (wpm transcript duration)
  then exists text, forall t,
      suggestions (rubric_pace transcript duration t)
      = (suggestions t ++ [text])%list
  else forall t, suggestions (rubric_pace transcript duration t) = suggestions t.
Proof.
  unfold rubric_pace, pace_speaks.
  destruct ((120 <=? wpm transcript duration)
            && (wpm transcript duration <=? 150)); simpl.
  - eexists; intros t; reflexivity.
  - destruct (wpm transcript duration <? 80); simpl.
    + eexists; intros t; reflexivity.
    + destruct (180 <? wpm transcript duration); simpl.
      * eexists; intros t; reflexivity.
      * reflexivity.
Qed.

(** The filler suggestion comes first and the [Set] keeps it there. *)
Lemma first_suggestion (transcript : jsstring) (duration : Q)
  (eyeContactScore facesDetected : Z) (text : string) :
  (forall t, suggestions (rubric_filler transcript t)
             = (suggestions t ++ [text])%list) ->
  hd_error (a_suggestions (analyzeTranscript transcript duration
                                             eyeContactScore facesDetected))
  = Some text.
Proof.
  intros Hf. unfold analyzeTranscript, assess. simpl.
  destruct (rubric_verbs_says transcript) as [v Hv].
  destruct (rubric_length_says transcript) as [n Hn].
  destruct (rubric_gaze_says eyeContactScore) as [g Hg].
  rewrite Hv, Hn, Hg.
  pose proof (rubric_pace_says transcript duration) as Hp.
  destruct (pace_speaks (wpm transcript duration)).
  - destruct Hp as [p Hp]. rewrite Hp, Hf. reflexivity.
  - rewrite Hp, Hf. reflexivity.
Qed.

(** C2, as the program computes it: the transcript of the scenario has 10
    words, so with a duration of 4.5 seconds and an average gaze score of 85
    the analyzer computes wpm = 133 (pace bonus +1), filler count 0 (+2),
    gaze bonus +2, a length under 50 words (+0), action-verb count 2 (+1),
    and returns the score 10 after clamping the sum 12. *)
Theorem scenario_scores_ten :
  wordCount results = 10
  /\ wpm results (45 # 10) = 133
  /\ (forall t, score (rubric_pace results (45 # 10) t) = score t + 1)
  /\ fillerCount results = 0
  /\ (forall t, score (rubric_filler results t) = score t + 2)
  /\ (forall t, score (rubric_gaze 85 t) = score t + 2)
  /\ wordCount results < 50
  /\ (forall t, score (rubric_length results t) = score t + 0)
  /\ actionVerbCount results = 2
  /\ (forall t, score (rubric_verbs results t) = score t + 1)
  /\ score (assess results (45 # 10) 85) = 12
  /\ (forall faceDetectionCount,
        a_score (analyzeTranscript results (45 # 10) 85 faceDetectionCount)
        = 10).
Proof.
  repeat split; intros;
    rewrite ?rubric_pace_score, ?rubric_filler_score, ?rubric_gaze_score,
      ?rubric_length_score, ?rubric_verbs_score;
    vm_compute; reflexivity.
Qed.

(** Against C2 as stated: the transcript of the scenario has 10 words, not
    9, and its pace at 4.5 seconds is not 120. *)
Lemma scenario_wpm_is_not_120 :
  ~ (wordCount results = 9 \/ wpm results (45 # 10) = 120).
Proof. vm_compute. intros [H|H]; discriminate H. Qed.

(** The matches are whole words, in any case: [Umbrella], [likely] and
    [you  know] with two spaces are no fillers; [UM], [like] and [You know]
    are. *)
Example fillers_are_whole_words :
  fillerCount (lit "Umbrella, likely; thumb, you  know_") = 0
  /\ fillerCount (lit "UM... like, You know!") = 3.
Proof. split; vm_compute; reflexivity. Qed.

(** C3: the count f the analyzer takes is the number of whole-word
    occurrences of the words of the filler lexicon in the transcript, in
    any case: the places where a word of the lexicon stands, letter for
    letter up to case, with no word character next to it on either side.
    The analyzer adds 2 and says "Excellent! No filler words detected"
    when f = 0, adds 1 when 1 <= f <= 2, and adds nothing and says "Too
    many filler words (f found) - Speak with confidence" when f > 2; a
    transcript with [um] twice, [uh] twice and no other filler has f = 4
    and gets that last suggestion. *)
Theorem filler_rubric (transcript : jsstring) (duration : Q)
  (avgGazeScore faceDetectionCount : Z) :
  let f := fillerCount transcript in
  let said :=
    hd_error (a_suggestions (analyzeTranscript transcript duration
                               avgGazeScore faceDetectionCount)) in
  f = whole_words fillerWords transcript
  /\ (f = 0 ->
      (forall t, score (rubric_filler transcript t) = score t + 2)
      /\ (forall t, suggestions (rubric_filler transcript t)
                    = (suggestions t
                       ++ ["✅ Excellent! No filler words detected"])%list)
      /\ said = Some "✅ Excellent! No filler words detected")
  /\ (1 <= f <= 2 ->
      forall t, score (rubric_filler transcript t) = score t + 1)
  /\ (2 < f ->
      (forall t, score (rubric_filler transcript t) = score t + 0)
      /\ (forall t, suggestions (rubric_filler transcript t)
                    = (suggestions t
                       ++ [("❌ Too many filler words (" ++ show f
                            ++ " found) - Speak with confidence")%string])%list)
      /\ said = Some ("❌ Too many filler words (" ++ show f
                      ++ " found) - Speak with confidence"))
  /\ (whole_word_occurrences "um" transcript = 2 ->
      whole_word_occurrences "uh" transcript = 2 ->
      only_um_and_uh transcript = true ->
      f = 4
      /\ said
         = Some "❌ Too many filler words (4 found) - Speak with confidence")
  /\ whole_word_occurrences "um" hesitant = 2
  /\ whole_word_occurrences "uh" hesitant = 2
  /\ only_um_and_uh hesitant = true.
Proof.
  intros f said.
  assert (zero : f = 0 -> forall t, suggestions (rubric_filler transcript t)
            = (suggestions t
               ++ ["✅ Excellent! No filler words detected"])%list).
  { intros E t. unfold rubric_filler. fold f. rewrite E. reflexivity. }
  assert (many : forall s, 2 < fillerCount s ->
            forall t, suggestions (rubric_filler s t)
            = (suggestions t
               ++ [("❌ Too many filler words (" ++ show (fillerCount s)
                    ++ " found) - Speak with confidence")%string])%list).
  { intros s E t. unfold rubric_filler.
    replace (fillerCount s =? 0) with false by lia.
    replace (fillerCount s <=? 2) with false by lia. reflexivity. }
  split; [apply fillerCount_whole_words|].
  split; [|split; [|split; [|split; [|split; [|split]]]]].
  - intros E. split; [|split].
    + intros t. rewrite rubric_filler_score. fold f. rewrite E. reflexivity.
    + exact (zero E).
    + apply first_suggestion. exact (zero E).
  - intros E t. rewrite rubric_filler_score. fold f. unfold filler_delta.
    replace (f =? 0) with false by lia.
    replace (1 <=? f) with true by lia.
    replace (f <=? 2) with true by lia. reflexivity.
  - intros E. split; [|split].
    + intros t. rewrite rubric_filler_score. fold f. unfold filler_delta.
      replace (f =? 0) with false by lia.
      replace (f <=? 2) with false by lia.
      rewrite andb_false_r. reflexivity.
    + exact (many transcript E).
    + apply first_suggestion. exact (many transcript E).
  - intros Hum Huh Hrest.
    assert (E : f = 4).
    { unfold only_um_and_uh in Hrest. simpl in Hrest.
      rewrite !andb_true_iff, !Z.eqb_eq in Hrest.
      destruct Hrest as [A [B [C [D [G _]]]]].
      subst f. rewrite fillerCount_whole_words.
      unfold whole_words, fillerWords. cbn [fold_right].
      rewrite Hum, Huh, A, B, C, D, G. reflexivity. }
    split; [exact E|].
    apply first_suggestion. intros t.
    rewrite (many transcript ltac:(fold f; lia) t). fold f. rewrite E.
    reflexivity.
  - vm_compute. reflexivity.
  - vm_compute. reflexivity.
  - vm_compute. reflexivity.
Qed.

Lemma filler_rubric_witness :
  fillerCount results = 0
  /\ 2 < fillerCount hesitant
  /\ hd_error (a_suggestions (analyzeTranscript results (45 # 10) 85 3))
     = Some "✅ Excellent! No filler words detected"
  /\ hd_error (a_suggestions (analyzeTranscript hesitant 6 50 3))
     = Some "❌ Too many filler words (4 found) - Speak with confidence".
Proof.
  split; [vm_compute; reflexivity|].
  split; [vm_compute; reflexivity|].
  split.
  - destruct (filler_rubric results (45 # 10) 85 3) as [_ [zero _]].
    apply zero. vm_compute. reflexivity.
  - destruct (filler_rubric hesitant 6 50 3) as [_ [_ [_ [_ [scenario _]]]]].
    apply scenario; vm_compute; reflexivity.
Defined.

(** C8, as the program computes it: the filler, gaze, length and action
    verb rubrics each append exactly one suggestion; the pace rubric
    appends one when the pace is within 120-150, below 80 or above 180 and
    none otherwise.  Before the [Set] the list therefore holds five texts
    in the order filler, pace, gaze, length, action verbs, or the four
    others in that order when the pace is in 80-119 or 151-180. *)
Theorem suggestions_before_the_set (transcript : jsstring) (duration : Q)
  (avgGazeScore : Z) :
  (0 < duration)%Q ->
  exists filler gaze len verbs : string,
    (forall t, suggestions (rubric_filler transcript t)
               = (suggestions t ++ [filler])%list)
    /\ (forall t, suggestions (rubric_gaze avgGazeScore t)
                  = (suggestions t ++ [gaze])%list)
    /\ (forall t, suggestions (rubric_length transcript t)
                  = (suggestions t ++ [len])%list)
    /\ (forall t, suggestions (rubric_verbs transcript t)
                  = (suggestions t ++ [verbs])%list)
    /\ if pace_speaks (wpm transcript duration)
       then exists pace : string,
           (forall t, suggestions (rubric_pace transcript duration t)
                      = (suggestions t ++ [pace])%list)
           /\ suggestions (assess transcript duration avgGazeScore)
              = [filler; pace; gaze; len; verbs]
       else (forall t, suggestions (rubric_pace transcript duration t)
                       = suggestions t)
            /\ suggestions (assess transcript duration avgGazeScore)
               = [filler; gaze; len; verbs].
Proof.
  intros _.
  destruct (rubric_filler_says transcript) as [f Hf].
  destruct (rubric_gaze_says avgGazeScore) as [g Hg].
  destruct (rubric_length_says transcript) as [n Hn].
  destruct (rubric_verbs_says transcript) as [v Hv].
  exists f, g, n, v. repeat (split; [assumption|]).
  pose proof (rubric_pace_says transcript duration) as Hp.
  unfold assess.
  destruct (pace_speaks (wpm transcript duration)).
  - destruct Hp as [p Hp]. exists p. split; [exact Hp|].
    rewrite Hv, Hn, Hg, Hp, Hf. reflexivity.
  - split; [exact Hp|]. rewrite Hv, Hn, Hg, Hp, Hf. reflexivity.
Qed.

Lemma suggestions_before_the_set_witness :
  (0 < 6)%Q /\ List.length (suggestions (assess results 6 85)) = 4%nat.
Proof.
  split; [reflexivity|].
  destruct (suggestions_before_the_set results 6 85 eq_refl)
    as [f [g [n [v [_ [_ [_ [_ H]]]]]]]].
  change (pace_speaks (wpm results 6)) with false in H.
  destruct H as [_ H]. rewrite H. reflexivity.
Defined.

(** Against C8 as stated: at a pace of 100 words per minute the pace rubric
    is silent and the list has four elements. *)
Lemma four_suggestions_at_pace_100 :
  wpm results 6 = 100
  /\ List.length (suggestions (assess results 6 85)) <> 5%nat.
Proof. split; [vm_compute; reflexivity | vm_compute; discriminate]. Qed.

End AnalyzerFacts.

(** ** Properties of the session *)

Section SessionFacts.

Import Analyzer Session Spec Scenario.

Open Scope string_scope.
Open Scope Z_scope.

(** *** Start *)

Lemma on_start (w : world) (now : Z) (fields : list (jsstring * json)) :
  own (lit "type") fields = Some (JStr (lit "start")) ->
  on_message now (Decoded (JObj fields)) w
  = (Normal tt,
     {| session := fresh now;
        sent := (sent w ++ [status
          "Recording started - Look at the camera and speak naturally!"])%list
     |}).
Proof.
  intros H. unfold on_message, try_catch, dispatch, bind, JSON_parse, Get, ret.
  rewrite H. reflexivity.
Qed.

(** C6: whatever the session holds (any transcript, any gaze samples, any
    face count), after a start event the transcript is empty, the list of
    gaze scores is empty, the face counter is 0 and the start time is the
    current time; the event is acknowledged with a status message. *)
Theorem start_resets_session (w : world) (now : Z)
  (fields : list (jsstring * json)) :
  own (lit "type") fields = Some (JStr (lit "start")) ->
  let w' := after now (Decoded (JObj fields)) w in
  transcript (session w') = []
  /\ eyeContactScores (session w') = []
  /\ facesDetected (session w') = 0
  /\ startTime (session w') = now
  /\ sent w'
     = (sent w ++ [status
          "Recording started - Look at the camera and speak naturally!"])%list.
Proof.
  intros H w'. subst w'. unfold after. rewrite (on_start w now fields H).
  simpl. repeat split.
Qed.

Lemma start_resets_session_witness :
  transcript (session in_progress) <> []
  /\ List.length (eyeContactScores (session in_progress)) = 2%nat
  /\ facesDetected (session in_progress) = 1
  /\ session (after 5000 (ev_start (lit "Tell me about yourself"))
                    in_progress)
     = fresh 5000.
Proof.
  split; [vm_compute; discriminate|].
  split; [vm_compute; reflexivity|].
  split; [vm_compute; reflexivity|].
  destruct (start_resets_session in_progress 5000
              [(lit "type", JStr (lit "start"));
               (lit "question", JStr (lit "Tell me about yourself"))]
              eq_refl) as [Ht [Hs [Hf [Hn _]]]].
  change (after 5000 (ev_start (lit "Tell me about yourself")) in_progress)
    with (after 5000
            (Decoded (JObj [(lit "type", JStr (lit "start"));
                            (lit "question",
                             JStr (lit "Tell me about yourself"))]))
            in_progress).
  destruct (session (after 5000 _ in_progress)) as [t s e f].
  simpl in Ht, Hs, Hf, Hn. subst. reflexivity.
Defined.

(** *** Stop *)

Lemma on_stop (w : world) (now avg : Z) :
  avgEyeContact (eyeContactScores (session w)) = Normal avg ->
  on_message now ev_stop w
  = (Normal tt,
     {| session := session w;
        sent := (sent w ++
          [final_analysis (trim (transcript (session w)))
             (analyzeTranscript (transcript (session w))
                (duration_at now (session w)) avg
                (facesDetected (session w)))])%list |}).
Proof.
  intros H.
  unfold on_message, try_catch, ev_stop, ev, dispatch, bind, JSON_parse, Get,
    ret.
  change (equals _ "transcript") with false.
  change (equals _ "eye_contact") with false.
  change (equals _ "face_detected") with false.
  change (equals _ "start") with false.
  change (equals _ "stop") with true.
  cbv iota. unfold stop, bind, get_session, lift. simpl session.
  rewrite H. reflexivity.
Qed.

Lemma Math_round_rounds (x : Q) : rounds_to x (Math_round x).
Proof.
  unfold rounds_to, Math_round.
  pose proof (Qfloor_le (x + (1 # 2))) as lo.
  pose proof (Qlt_floor (x + (1 # 2))) as hi.
  rewrite inject_Z_plus in hi. change (inject_Z 1) with 1%Q in hi.
  split; lra.
Qed.

(** Only one integer is the rounding of a number. *)
Lemma rounds_to_unique (x : Q) (j k : Z) :
  rounds_to x j -> rounds_to x k -> j = k.
Proof.
  unfold rounds_to. intros [lj hj] [lk hk].
  assert (A : (inject_Z j < inject_Z k + 1)%Q) by lra.
  assert (B : (inject_Z k < inject_Z j + 1)%Q) by lra.
  change 1%Q with (inject_Z 1) in A, B.
  rewrite <- inject_Z_plus in A, B.
  rewrite <- Zlt_Qlt in A, B. lia.
Qed.

Lemma rounds_to_comp (x y : Q) (k : Z) :
  (x == y)%Q -> rounds_to x k -> rounds_to y k.
Proof. unfold rounds_to. intros E [lo hi]. rewrite <- E. split; assumption. Qed.

Lemma reduce_add_samples (samples : list Q) (a : Q) :
  exists sum, reduce_add (Some a) (map sample samples) = Normal (Some sum)
              /\ (sum == a + fold_right Qplus 0 samples)%Q.
Proof.
  revert a. induction samples as [|q samples IH]; intros a; simpl.
  - exists a. split; [reflexivity | lra].
  - destruct (IH (a + q)%Q) as [sum [E S]].
    exists sum. split; [exact E | rewrite S; lra].
Qed.

Lemma avgEyeContact_samples (samples : list Q) :
  samples <> [] ->
  exists k, avgEyeContact (map sample samples) = Normal k
            /\ rounds_to (mean samples) k.
Proof.
  intros Hne. unfold avgEyeContact.
  destruct samples as [|q samples]; [contradiction|].
  change (0 <? List.length (map sample (q :: samples)))%nat with true.
  cbv iota.
  destruct (reduce_add_samples (q :: samples) 0) as [sum [E S]].
  rewrite E. eexists. split; [reflexivity|].
  apply rounds_to_comp with (2 := Math_round_rounds _).
  unfold mean. rewrite length_map, S.
  apply Qdiv_comp; [lra | reflexivity].
Qed.

(** C4: a stop event handled with no gaze sample passes the analyzer the
    average 0 (a number); with samples, it passes their arithmetic mean
    rounded to the nearest integer. *)
Theorem average_gaze_at_stop (w : world) (now : Z) :
  (eyeContactScores (session w) = [] ->
   avgEyeContact (eyeContactScores (session w)) = Normal 0
   /\ exists result,
       after now ev_stop w
       = {| session := session w;
            sent := (sent w
                     ++ [final_analysis (trim (transcript (session w)))
                                        result])%list |}
       /\ result = analyzeTranscript (transcript (session w))
                     (duration_at now (session w)) 0
                     (facesDetected (session w))
       /\ m_eyeContactScore (a_metrics result) = 0)
  /\ (forall samples : list Q,
        samples <> [] ->
        eyeContactScores (session w) = map sample samples ->
        exists k result,
          rounds_to (mean samples) k
          /\ avgEyeContact (eyeContactScores (session w)) = Normal k
          /\ after now ev_stop w
             = {| session := session w;
                  sent := (sent w
                           ++ [final_analysis (trim (transcript (session w)))
                                              result])%list |}
          /\ result = analyzeTranscript (transcript (session w))
                        (duration_at now (session w)) k
                        (facesDetected (session w))
          /\ m_eyeContactScore (a_metrics result) = k).
Proof.
  split.
  - intros E.
    assert (A : avgEyeContact (eyeContactScores (session w)) = Normal 0)
      by (rewrite E; reflexivity).
    split; [exact A|]. eexists. split; [|split; [reflexivity|reflexivity]].
    unfold after. rewrite (on_stop w now 0 A). reflexivity.
  - intros samples Hne E.
    destruct (avgEyeContact_samples samples Hne) as [k [A R]].
    rewrite <- E in A.
    exists k. eexists. split; [exact R|]. split; [exact A|].
    split; [|split; [reflexivity|reflexivity]].
    unfold after. rewrite (on_stop w now k A). reflexivity.
Qed.

Lemma average_gaze_at_stop_witness :
  eyeContactScores (session (connect 0)) = []
  /\ avgEyeContact (eyeContactScores (session (connect 0))) = Normal 0
  /\ [90; 75]%Q <> []
  /\ eyeContactScores (session in_progress) = map sample [90; 75]%Q
  /\ exists k, rounds_to (mean [90; 75]%Q) k
               /\ avgEyeContact (eyeContactScores (session in_progress))
                  = Normal k.
Proof.
  split; [reflexivity|].
  split.
  { destruct (average_gaze_at_stop (connect 0) 9000) as [none _].
    apply none. reflexivity. }
  split; [discriminate|].
  split; [vm_compute; reflexivity|].
  destruct (average_gaze_at_stop in_progress 9000) as [_ some].
  destruct (some [90; 75]%Q ltac:(discriminate) eq_refl)
    as [k [result [R [A _]]]].
  exists k. split; assumption.
Defined.

(** The samples 90 and 75 average to 83. *)
Example average_of_90_and_75 :
  avgEyeContact (eyeContactScores (session in_progress)) = Normal 83.
Proof. vm_compute. reflexivity. Qed.

(** *** Messages that cannot be handled *)

(** What the handler does with a [SyntaxError] of [JSON.parse]. *)
Lemma undecodable_is_reported (w : world) (now : Z) (description : string) :
  on_message now (Undecodable description) w
  = (Normal tt,
     {| session := session w;
        sent := (sent w ++ [error description])%list |}).
Proof. reflexivity. Qed.

(** Whatever the body of [try] throws is reported, and the session is the
    one the body left. *)
Lemma thrown_is_reported (now : Z) (message : inbound) (w w1 : world)
  (e : js_error) :
  dispatch now message w = (Throw e, w1) ->
  on_message now message w
  = (Normal tt,
     {| session := session w1;
        sent := (sent w1 ++ [error (message_of e)])%list |}).
Proof.
  intros H. unfold on_message, try_catch. rewrite H. reflexivity.
Qed.

(** The body of [try] throws before it writes to the session, except in
    the [eye_contact] branch, which stores the score and then logs it. *)
Lemma throw_leaves_session (now : Z) (message : inbound) (w w1 : world)
  (e : js_error) :
  dispatch now message w = (Throw e, w1) ->
  sent w1 = sent w
  /\ (session w1 = session w
      \/ exists fields,
          message = Decoded (JObj fields)
          /\ equals (own (lit "type") fields) "eye_contact" = true
          /\ session w1
             = {| transcript := transcript (session w);
                  startTime := startTime (session w);
                  eyeContactScores :=
                    (eyeContactScores (session w)
                     ++ [own (lit "score") fields])%list;
                  facesDetected := facesDetected (session w) |}).
Proof.
  destruct w as [s out].
  destruct message as [description|data].
  { intros H. inversion H. subst. split; [reflexivity | left; reflexivity]. }
  destruct data as [|b|q|str|items|fields];
    try (intros H; inversion H; subst; split;
         solve [reflexivity | left; reflexivity]).
  unfold dispatch, bind, JSON_parse, Get, ret. cbv iota beta.
  destruct (equals (own (lit "type") fields) "transcript").
  { unfold log_substring, append_transcript, bind, get_session, set_session,
      throw, ret.
    destruct (own (lit "transcript") fields) as [[|b|q|str|items|fs]|];
      intros H; inversion H; subst; split;
      solve [reflexivity | left; reflexivity]. }
  destruct (equals (own (lit "type") fields) "eye_contact") eqn:Eeye.
  { unfold push_score, log_template, bind, get_session, set_session, throw,
      ret. cbv iota beta. simpl session. simpl sent.
    destruct (own (lit "score") fields) as [j|] eqn:Escore.
    - destruct (printable j); intros H; inversion H; subst.
      split; [reflexivity|]. right. exists fields.
      rewrite Escore. repeat split. exact Eeye.
    - intros H; inversion H. }
  destruct (equals (own (lit "type") fields) "face_detected").
  { intros H; inversion H. }
  destruct (equals (own (lit "type") fields) "start").
  { intros H; inversion H. }
  destruct (equals (own (lit "type") fields) "stop").
  { unfold stop, bind, get_session, ws_send, unmodelled. simpl.
    unfold lift.
    destruct (avgEyeContact (eyeContactScores s)); intros H; inversion H.
    subst. split; [reflexivity | left; reflexivity]. }
  intros H; inversion H.
Qed.

(** A message that cannot be handled and is no [eye_contact] event is
    reported and leaves the session as it was. *)
Lemma rejected_message (now : Z) (message : inbound) (w w1 : world)
  (e : js_error) :
  dispatch now message w = (Throw e, w1) ->
  (forall fields, message = Decoded (JObj fields) ->
                  equals (own (lit "type") fields) "eye_contact" = false) ->
  after now message w
  = {| session := session w;
       sent := (sent w ++ [error (message_of e)])%list |}.
Proof.
  intros H Hno. unfold after. rewrite (thrown_is_reported _ _ _ _ _ H).
  destruct (throw_leaves_session _ _ _ _ _ H) as [Hs [Hk|[fields [E [T _]]]]].
  - simpl. rewrite Hs, Hk. reflexivity.
  - rewrite (Hno fields E) in T. discriminate.
Qed.

(** A [stop] whose average throws reports the error and sends no
    analysis. *)
Lemma on_stop_throw (w : world) (now : Z) (e : js_error) :
  avgEyeContact (eyeContactScores (session w)) = Throw e ->
  on_message now ev_stop w
  = (Normal tt,
     {| session := session w;
        sent := (sent w ++ [error (message_of e)])%list |}).
Proof.
  intros H.
  unfold on_message, try_catch, ev_stop, ev, dispatch, bind, JSON_parse, Get,
    ret.
  change (equals _ "transcript") with false.
  change (equals _ "eye_contact") with false.
  change (equals _ "face_detected") with false.
  change (equals _ "start") with false.
  change (equals _ "stop") with true.
  cbv iota. unfold stop, bind, get_session, lift. simpl session.
  rewrite H. reflexivity.
Qed.

(** Once a sample that cannot be converted is in the list, the sum
    throws. *)
Lemma reduce_add_unprintable (scores : list value) (a : option Q) :
  reduce_add a (scores ++ [Some (JObj [(lit "toString", JNum 0)])])%list
  = Throw (TypeError "Cannot convert object to primitive value").
Proof.
  revert a.
  induction scores as [|[j|] scores IH]; intros a; simpl.
  - reflexivity.
  - destruct j as [|b|q|str|items|fs]; try apply IH;
      match goal with
      | |- context [if ?c then _ else _] => destruct c
      end; first [apply IH | reflexivity].
  - apply IH.
Qed.

(** C7, at the message [{"type":"eye_contact","score":{"toString":0}}]:
    the handler reports an error for it, as for every message it cannot
    handle, but the session is not unchanged: the score has been stored in
    the list of gaze scores before the failure. *)
Theorem unprintable_score_is_recorded (w : world) (now : Z) :
  on_message now unprintable_score w
  = (Normal tt,
     {| session :=
          {| transcript := transcript (session w);
             startTime := startTime (session w);
             eyeContactScores :=
               (eyeContactScores (session w)
                ++ [Some (JObj [(lit "toString", JNum 0)])])%list;
             facesDetected := facesDetected (session w) |};
        sent := (sent w
                 ++ [error "Cannot convert object to primitive value"])%list
     |})
  /\ session (after now unprintable_score w) <> session w
  /\ (forall later,
        sent (after later ev_stop (after now unprintable_score w))
        = (sent (after now unprintable_score w)
           ++ [error "Cannot convert object to primitive value"])%list).
Proof.
  split; [reflexivity|]. split; [|intros later].
  - unfold after. simpl. intros E.
    apply (f_equal (fun s => List.length (eyeContactScores s))) in E.
    simpl in E. rewrite length_app in E. simpl in E. lia.
  - unfold after at 1. rewrite (on_stop_throw _ later
      (TypeError "Cannot convert object to primitive value")).
    + reflexivity.
    + unfold after. simpl. unfold avgEyeContact.
      rewrite reduce_add_unprintable.
      destruct (0 <? _)%nat eqn:L; [reflexivity|].
      rewrite length_app in L. simpl in L. apply Nat.ltb_ge in L. lia.
Qed.

(** *** Transcript events *)

Lemma on_transcript (w : world) (now : Z) (fragment : jsstring) :
  on_message now (ev_transcript fragment) w
  = (Normal tt,
     {| session :=
          {| transcript := appended (transcript (session w)) fragment;
             startTime := startTime (session w);
             eyeContactScores := eyeContactScores (session w);
             facesDetected := facesDetected (session w) |};
        sent := sent w |}).
Proof. reflexivity. Qed.

(** The transcript a list of fragments builds from [text]. *)
Lemma run_transcripts (timed : list (Z * jsstring)) (w : world) :
  run (transcript_events timed) w
  = {| session :=
         {| transcript :=
              fold_left appended (map snd timed) (transcript (session w));
            startTime := startTime (session w);
            eyeContactScores := eyeContactScores (session w);
            facesDetected := facesDetected (session w) |};
       sent := sent w |}.
Proof.
  revert w. induction timed as [|[t f] timed IH]; intros w.
  - destruct w as [[? ? ? ?] ?]. reflexivity.
  - unfold run, transcript_events in *. simpl fold_left.
    unfold after at 2. rewrite on_transcript. simpl snd.
    rewrite IH. reflexivity.
Qed.

Lemma split_scan_length (s piece : jsstring) :
  List.length (split_scan false piece s)
  = (words_scan true s + 1 + Nat.b2n (ends_in_space false s))%nat
  /\ List.length (split_scan true piece s)
     = (words_scan false s + Nat.b2n (ends_in_space true s))%nat.
Proof.
  revert piece. induction s as [|c s IH]; intros piece; simpl.
  - split; reflexivity.
  - destruct (is_space c); simpl.
    + destruct (IH []) as [_ sep]. destruct (IH piece) as [_ sep'].
      split; lia.
    + destruct (IH (c :: piece)) as [word _]. split; lia.
Qed.

Lemma words_scan_app (a r : jsstring) (in_word : bool) :
  words_scan in_word (a ++ 32%N :: r)%list
  = (words_scan in_word a + words_scan false r)%nat.
Proof.
  revert in_word. induction a as [|c a IH]; intros in_word; simpl.
  - reflexivity.
  - destruct (is_space c); rewrite IH; lia.
Qed.

Lemma ends_in_space_app (a r : jsstring) (c : N) (before : bool) :
  ends_in_space before (a ++ c :: r)%list = ends_in_space (is_space c) r.
Proof.
  revert before. induction a as [|d a IH]; intros before; simpl.
  - reflexivity.
  - apply IH.
Qed.

(** The words of a text that starts with a space, and the pieces
    [split(/\s+/)] cuts it into. *)
Lemma wordCount_after_space (r : jsstring) :
  wordCount (32%N :: r)
  = Z.of_nat (words (32%N :: r)) + 1
    + (if ends_in_space false (32%N :: r) then 1 else 0).
Proof.
  unfold wordCount, split_spaces, words.
  change (split_scan false [] (32%N :: r))
    with (@nil N :: split_scan true [] r).
  change (words_scan false (32%N :: r)) with (words_scan false r).
  change (ends_in_space false (32%N :: r)) with (ends_in_space true r).
  cbn [List.length].
  destruct (split_scan_length r []) as [_ sep]. rewrite sep.
  destruct (ends_in_space true r); cbn [Nat.b2n]; lia.
Qed.

Lemma last_cons (fragments : list jsstring) (g f : jsstring) :
  last (g :: fragments) f = last fragments g.
Proof.
  revert g f. induction fragments as [|h fragments IH]; intros g f.
  - reflexivity.
  - change (last (g :: h :: fragments) f) with (last (h :: fragments) f).
    rewrite (IH h f), (IH h g). reflexivity.
Qed.

Lemma joined_words (fragments : list jsstring) (text : jsstring) :
  words (fold_left appended fragments text)
  = (words text + fragment_words fragments)%nat.
Proof.
  revert text. induction fragments as [|f fragments IH]; intros text; simpl.
  - lia.
  - rewrite IH. unfold appended, words. rewrite words_scan_app. lia.
Qed.

Lemma joined_head (fragments : list jsstring) (c : N) (text : jsstring) :
  exists r, fold_left appended fragments (c :: text) = c :: r.
Proof.
  revert text. induction fragments as [|f fragments IH]; intros text; simpl.
  - exists text. reflexivity.
  - apply IH.
Qed.

Lemma joined_end (fragments : list jsstring) (text f : jsstring)
  (before : bool) :
  ends_in_space before (fold_left appended fragments (appended text f))
  = ends_in_space true (last fragments f).
Proof.
  revert text f. induction fragments as [|g fragments IH]; intros text f.
  - simpl. unfold appended. apply ends_in_space_app.
  - simpl fold_left. rewrite IH, last_cons. reflexivity.
Qed.

(** The transcript of a session that has received the fragment [f] and
    then [fragments]. *)
Lemma joined_count (f : jsstring) (fragments : list jsstring) :
  let text := fold_left appended (f :: fragments) [] in
  hd_error text = Some 32%N
  /\ wordCount text
     = Z.of_nat (fragment_words (f :: fragments)) + 1
       + (if ends_in_space true (last (f :: fragments) []) then 1 else 0).
Proof.
  intros text. subst text. simpl fold_left. rewrite last_cons.
  destruct (joined_head fragments 32%N f) as [r Hr].
  change (appended [] f) with (32%N :: f).
  rewrite Hr. split; [reflexivity|].
  rewrite wordCount_after_space, <- Hr.
  change (32%N :: f) with (appended [] f).
  rewrite joined_words, joined_end.
  unfold appended, words. simpl app. simpl fragment_words.
  change (words_scan false (32%N :: f)) with (words_scan false f).
  unfold words. lia.
Qed.

(** The fragments the client sends are trimmed and not empty: the count is
    then one more than their words. *)
Corollary word_count_of_trimmed_fragments (opened : Z)
  (timed : list (Z * jsstring)) :
  map snd timed <> [] ->
  ends_in_space true (last (map snd timed) []) = false ->
  wordCount (transcript (session
     (run (transcript_events timed) (connect opened))))
  = Z.of_nat (fragment_words (map snd timed)) + 1.
Proof.
  intros Hne Hend. rewrite run_transcripts. simpl transcript.
  destruct (map snd timed) as [|f fragments]; [contradiction|].
  destruct (joined_count f fragments) as [_ count].
  rewrite count, Hend. lia.
Qed.


End SessionFacts.

(** ** Properties of the gaze classifier *)

Section GazeFacts.

Import Gaze Spec Scenario.

Open Scope Q_scope.

Lemma Math_round_integer (z : Z) : Math_round (inject_Z z) = z.
Proof.
  apply (rounds_to_unique (inject_Z z)).
  - apply Math_round_rounds.
  - unfold rounds_to. split; lra.
Qed.

(** The clamp and the rounding leave the four scores as they are. *)
Lemma gaze_score_threshold (b : box) (videoWidth videoHeight : float) :
  gaze_score b videoWidth videoHeight
  = threshold_score b videoWidth videoHeight
  /\ In (threshold_score b videoWidth videoHeight) [90; 75; 60; 40]%Z.
Proof.
  unfold gaze_score. rewrite Math_round_integer. unfold threshold_score.
  repeat match goal with
         | |- context [if ?c then _ else _] => destruct c
         end; simpl; split; auto; lia.
Qed.

(** *** The order of binary64 *)







End GazeFacts.

(** ** Further properties of the analyzer *)

Section AnalyzerMore.

Import Analyzer Spec Scenario Measure.

Open Scope string_scope.
Open Scope Z_scope.

(** *** The case of the letters *)

Lemma canonicalize_idempotent (c : N) :
  canonicalize (canonicalize c) = canonicalize c.
Proof.
  unfold canonicalize.
  destruct ((97 <=? c) && (c <=? 122))%N eqn:E; [|rewrite E; reflexivity].
  apply andb_true_iff in E. destruct E as [lo hi].
  apply N.leb_le in lo. apply N.leb_le in hi.
  replace (c - 32 <=? 122)%N with true by (symmetry; apply N.leb_le; lia).
  replace (97 <=? c - 32)%N with false by (symmetry; apply N.leb_gt; lia).
  reflexivity.
Qed.

Lemma is_word_char_canonicalize (c : N) :
  is_word_char (canonicalize c) = is_word_char c.
Proof. apply canonicalize_word_char, canonicalize_idempotent. Qed.

Lemma is_space_letter (c : N) : (65 <= c <= 122)%N -> is_space c = false.
Proof.
  intros H. unfold is_space.
  rewrite (proj2 (N.leb_gt c 13)) by lia.
  rewrite (proj2 (N.leb_gt 8192 c)) by lia.
  rewrite !(proj2 (N.eqb_neq c _)) by lia.
  rewrite andb_false_r. reflexivity.
Qed.

Lemma is_space_canonicalize (c : N) :
  is_space (canonicalize c) = is_space c.
Proof.
  unfold canonicalize.
  destruct ((97 <=? c) && (c <=? 122))%N eqn:E; [|reflexivity].
  apply andb_true_iff in E. destruct E as [lo hi].
  apply N.leb_le in lo. apply N.leb_le in hi.
  rewrite !is_space_letter by lia. reflexivity.
Qed.

Lemma word_at_canonicalize (c : option N) :
  word_at (option_map canonicalize c) = word_at c.
Proof. destruct c; [apply is_word_char_canonicalize | reflexivity]. Qed.

Lemma boundary_canonicalize (a b : option N) :
  boundary (option_map canonicalize a) (option_map canonicalize b)
  = boundary a b.
Proof. unfold boundary. rewrite !word_at_canonicalize. reflexivity. Qed.

Lemma literal_ci_canonicalize (word s : jsstring) (last : option N) :
  literal_ci word (map canonicalize s) (option_map canonicalize last)
  = option_map (fun r => (option_map canonicalize (fst r),
                          map canonicalize (snd r)))
               (literal_ci word s last).
Proof.
  revert s last. induction word as [|p word IH]; intros s last.
  - reflexivity.
  - destruct s as [|c s]; [reflexivity|]. cbn [map literal_ci].
    rewrite canonicalize_idempotent.
    destruct (canonicalize c =? canonicalize p)%N; [|reflexivity].
    exact (IH s (Some c)).
Qed.

Lemma match_here_canonicalize (word s : jsstring) (before : option N) :
  match_here word (option_map canonicalize before) (map canonicalize s)
  = match_here word before s.
Proof.
  unfold match_here.
  replace (hd_error (map canonicalize s))
    with (option_map canonicalize (hd_error s)) by (destruct s; reflexivity).
  rewrite boundary_canonicalize, literal_ci_canonicalize.
  destruct (literal_ci word s before) as [[last rest]|]; [|reflexivity].
  cbn [option_map fst snd].
  replace (hd_error (map canonicalize rest))
    with (option_map canonicalize (hd_error rest))
    by (destruct rest; reflexivity).
  rewrite boundary_canonicalize. reflexivity.
Qed.

Lemma match_scan_canonicalize (word s : jsstring) (before : option N)
  (skip : nat) :
  match_scan word (option_map canonicalize before) skip (map canonicalize s)
  = match_scan word before skip s.
Proof.
  revert before skip. induction s as [|c s IH]; intros before skip.
  - reflexivity.
  - cbn [map match_scan]. destruct skip as [|k].
    + change (canonicalize c :: map canonicalize s)
        with (map canonicalize (c :: s)).
      rewrite match_here_canonicalize.
      destruct (match_here word before (c :: s));
        rewrite (IH (Some c)); reflexivity.
    + exact (IH (Some c) k).
Qed.

Lemma count_matches_canonicalize (lexicon : list string) (s : jsstring) :
  count_matches lexicon (map canonicalize s) = count_matches lexicon s.
Proof.
  unfold count_matches. generalize 0.
  induction lexicon as [|word lexicon IH]; intros n; simpl.
  - reflexivity.
  - rewrite IH. unfold match_count.
    change (@None N) with (option_map canonicalize None).
    rewrite match_scan_canonicalize. reflexivity.
Qed.

Lemma split_scan_canonicalize (s piece piece' : jsstring) (in_sep : bool) :
  List.length (split_scan in_sep piece (map canonicalize s))
  = List.length (split_scan in_sep piece' s).
Proof.
  revert piece piece' in_sep.
  induction s as [|c s IH]; intros piece piece' in_sep.
  - reflexivity.
  - cbn [map split_scan]. rewrite is_space_canonicalize.
    destruct (is_space c); [destruct in_sep|].
    + apply IH.
    + cbn [List.length]. f_equal. apply IH.
    + apply IH.
Qed.

Lemma wordCount_canonicalize (s : jsstring) :
  wordCount (map canonicalize s) = wordCount s.
Proof.
  unfold wordCount, split_spaces. f_equal. apply split_scan_canonicalize.
Qed.

(** The analysis is a function of the three counts, the duration and the
    gaze score. *)
Lemma analysis_of_counts (t1 t2 : jsstring) (duration : Q)
  (eyeContactScore facesDetected : Z) :
  fillerCount t1 = fillerCount t2 ->
  actionVerbCount t1 = actionVerbCount t2 ->
  wordCount t1 = wordCount t2 ->
  analyzeTranscript t1 duration eyeContactScore facesDetected
  = analyzeTranscript t2 duration eyeContactScore facesDetected.
Proof.
  intros Hf Hv Hw.
  unfold analyzeTranscript, assess, rubric_verbs, rubric_length, rubric_pace,
    rubric_filler, wpm.
  rewrite Hf, Hv, Hw. reflexivity.
Qed.

(** X1: two transcripts that differ only in the case of their ASCII
    letters get the same analysis: score, suggestions and metrics. *)
Theorem analysis_ignores_case (t1 t2 : jsstring) (duration : Q)
  (eyeContactScore facesDetected : Z) :
  map canonicalize t1 = map canonicalize t2 ->
  analyzeTranscript t1 duration eyeContactScore facesDetected
  = analyzeTranscript t2 duration eyeContactScore facesDetected.
Proof.
  intros E. apply analysis_of_counts.
  - unfold fillerCount.
    rewrite <- (count_matches_canonicalize _ t1),
      <- (count_matches_canonicalize _ t2), E. reflexivity.
  - unfold actionVerbCount.
    rewrite <- (count_matches_canonicalize _ t1),
      <- (count_matches_canonicalize _ t2), E. reflexivity.
  - rewrite <- (wordCount_canonicalize t1), <- (wordCount_canonicalize t2), E.
    reflexivity.
Qed.

Lemma analysis_ignores_case_witness :
  map canonicalize (lit "um I Led the team")
  = map canonicalize (lit "UM i led THE Team")
  /\ analyzeTranscript (lit "um I Led the team") 3 70 1
     = analyzeTranscript (lit "UM i led THE Team") 3 70 1.
Proof.
  split; [reflexivity|].
  apply (analysis_ignores_case (lit "um I Led the team")
           (lit "UM i led THE Team") 3 70 1).
  reflexivity.
Defined.

(** *** The suggestions returned *)

Lemma dedup_from_fresh (l seen : list string) :
  NoDup l -> (forall x, In x l -> ~ In x seen) -> dedup_from seen l = l.
Proof.
  revert seen. induction l as [|x l IH]; intros seen Hnd Hfresh.
  - reflexivity.
  - cbn [dedup_from]. inversion Hnd as [|? ? Hx Hl]; subst.
    destruct (existsb (String.eqb x) seen) eqn:E.
    + apply existsb_exists in E. destruct E as [y [Hy Exy]].
      apply String.eqb_eq in Exy. subst y.
      exfalso. apply (Hfresh x); [left; reflexivity | exact Hy].
    + f_equal. apply IH; [exact Hl|].
      intros y Hy [Hin|Hin].
      * subst y. exact (Hx Hy).
      * apply (Hfresh y); [right; exact Hy | exact Hin].
Qed.

Lemma dedup_NoDup (l : list string) : NoDup l -> dedup l = l.
Proof. intros H. apply dedup_from_fresh; [exact H | intros x _ []]. Qed.

(** Each rubric writes texts of its own. *)
Lemma rubric_filler_text (transcript : jsstring) :
  exists text,
    (forall t, suggestions (rubric_filler transcript t)
               = (suggestions t ++ [text])%list)
    /\ rubric_of text = 0%nat.
Proof.
  unfold rubric_filler.
  destruct (fillerCount transcript =? 0);
    [|destruct (fillerCount transcript <=? 2)];
    eexists; (split; [intros t; reflexivity | reflexivity]).
Qed.

Lemma rubric_pace_text (transcript : jsstring) (duration : Q) :
  if pace_speaks (wpm transcript duration)
  then exists text,
      (forall t, suggestions (rubric_pace transcript duration t)
                 = (suggestions t ++ [text])%list)
      /\ rubric_of text = 1%nat
  else forall t, suggestions (rubric_pace transcript duration t)
                 = suggestions t.
Proof.
  unfold rubric_pace, pace_speaks.
  destruct ((120 <=? wpm transcript duration)
            && (wpm transcript duration <=? 150)); cbn [orb].
  - eexists; (split; [intros t; reflexivity | reflexivity]).
  - destruct (wpm transcript duration <? 80); cbn [orb].
    + eexists; (split; [intros t; reflexivity | reflexivity]).
    + destruct (180 <? wpm transcript duration).
      * eexists; (split; [intros t; reflexivity | reflexivity]).
      * reflexivity.
Qed.

Lemma rubric_gaze_text (eyeContactScore : Z) :
  exists text,
    (forall t, suggestions (rubric_gaze eyeContactScore t)
               = (suggestions t ++ [text])%list)
    /\ rubric_of text = 2%nat.
Proof.
  unfold rubric_gaze.
  destruct (80 <=? eyeContactScore); [|destruct (60 <=? eyeContactScore)];
    eexists; (split; [intros t; reflexivity | reflexivity]).
Qed.

Lemma rubric_length_text (transcript : jsstring) :
  exists text,
    (forall t, suggestions (rubric_length transcript t)
               = (suggestions t ++ [text])%list)
    /\ rubric_of text = 3%nat.
Proof.
  unfold rubric_length.
  destruct (wordCount transcript <? 50);
    [|destruct (500 <? wordCount transcript)];
    eexists; (split; [intros t; reflexivity | reflexivity]).
Qed.

Lemma rubric_verbs_text (transcript : jsstring) :
  exists text,
    (forall t, suggestions (rubric_verbs transcript t)
               = (suggestions t ++ [text])%list)
    /\ rubric_of text = 4%nat.
Proof.
  unfold rubric_verbs.
  destruct (3 <=? actionVerbCount transcript);
    [|destruct (0 <? actionVerbCount transcript)];
    eexists; (split; [intros t; reflexivity | reflexivity]).
Qed.

(** X2: the [Set] removes nothing.  The suggestions returned are the ones
    the rubrics pushed, in their order and all different: five of them, or
    four when the pace rubric is silent. *)
Theorem set_keeps_every_suggestion (transcript : jsstring) (duration : Q)
  (eyeContactScore facesDetected : Z) :
  (0 < duration)%Q ->
  let returned :=
    a_suggestions (analyzeTranscript transcript duration eyeContactScore
                                     facesDetected) in
  returned = suggestions (assess transcript duration eyeContactScore)
  /\ NoDup returned
  /\ List.length returned
     = (if pace_speaks (wpm transcript duration) then 5 else 4)%nat.
Proof.
  intros _ returned. subst returned. unfold analyzeTranscript.
  cbn [a_suggestions].
  destruct (rubric_filler_text transcript) as [f [Hf Cf]].
  destruct (rubric_gaze_text eyeContactScore) as [g [Hg Cg]].
  destruct (rubric_length_text transcript) as [n [Hn Cn]].
  destruct (rubric_verbs_text transcript) as [v [Hv Cv]].
  pose proof (rubric_pace_text transcript duration) as Hp.
  unfold assess. rewrite Hv, Hn, Hg.
  destruct (pace_speaks (wpm transcript duration)).
  - destruct Hp as [p [Hp Cp]]. rewrite Hp, Hf. cbn [initial suggestions app].
    assert (D : NoDup [f; p; g; n; v]).
    { apply (NoDup_map_inv rubric_of). cbn [map].
      rewrite Cf, Cp, Cg, Cn, Cv.
      repeat constructor; cbn [In]; intuition discriminate. }
    rewrite (dedup_NoDup _ D). repeat split. exact D.
  - rewrite Hp, Hf. cbn [initial suggestions app].
    assert (D : NoDup [f; g; n; v]).
    { apply (NoDup_map_inv rubric_of). cbn [map].
      rewrite Cf, Cg, Cn, Cv.
      repeat constructor; cbn [In]; intuition discriminate. }
    rewrite (dedup_NoDup _ D). repeat split. exact D.
Qed.

Lemma set_keeps_every_suggestion_witness :
  (0 < 6)%Q
  /\ List.length (a_suggestions (analyzeTranscript results 6 85 3)) = 4%nat.
Proof.
  split; [reflexivity|].
  destruct (set_keeps_every_suggestion results 6 85 3 eq_refl)
    as [_ [_ H]].
  rewrite H. reflexivity.
Defined.

(** *** Words and pace *)

(** X3: the word count of the analyzer is the number of words of the
    transcript, plus one when the transcript is empty or starts with white
    space, plus one when it ends with white space; it is never below 1. *)
Theorem wordCount_of_words (transcript : jsstring) :
  wordCount transcript
  = Z.of_nat (words transcript)
    + (if leading transcript then 1 else 0)
    + (if ends_in_space false transcript then 1 else 0)
  /\ 1 <= wordCount transcript.
Proof.
  assert (E : wordCount transcript
              = Z.of_nat (words transcript)
                + (if leading transcript then 1 else 0)
                + (if ends_in_space false transcript then 1 else 0)).
  { unfold wordCount, split_spaces, words.
    destruct transcript as [|c s]; [reflexivity|].
    cbn [split_scan words_scan leading ends_in_space rev app].
    destruct (is_space c).
    - cbn [List.length]. destruct (split_scan_length s []) as [_ sep].
      rewrite sep. destruct (ends_in_space true s); cbn [Nat.b2n]; lia.
    - destruct (split_scan_length s [c]) as [word _].
      rewrite word. destruct (ends_in_space false s); cbn [Nat.b2n]; lia. }
  split; [exact E|].
  rewrite E. unfold words.
  destruct transcript as [|c s]; cbn [leading words_scan ends_in_space].
  - lia.
  - destruct (is_space c); destruct (ends_in_space _ s); lia.
Qed.

Lemma wordCount_positive (transcript : jsstring) : 1 <= wordCount transcript.
Proof.
  unfold wordCount, split_spaces.
  destruct (split_scan_length transcript []) as [word _]. lia.
Qed.

(** X4: for a transcript, a longer duration never gives a higher pace, and
    the pace is never negative. *)
Theorem pace_falls_with_duration (transcript : jsstring) (d1 d2 : Q) :
  (0 < d1)%Q -> (d1 <= d2)%Q ->
  0 <= wpm transcript d2 <= wpm transcript d1.
Proof.
  intros H1 H12. unfold wpm, Math_round, minutesDuration.
  pose proof (wordCount_positive transcript) as Hw.
  assert (Hq : (0 < inject_Z (wordCount transcript))%Q).
  { change 0%Q with (inject_Z 0). rewrite <- Zlt_Qlt. lia. }
  set (x := inject_Z (wordCount transcript)) in *.
  assert (I60 : (0 < / 60)%Q) by reflexivity.
  assert (M1 : (0 < d1 / 60)%Q)
    by (unfold Qdiv; apply Qmult_lt_0_compat; assumption).
  assert (M12 : (d1 / 60 <= d2 / 60)%Q)
    by (unfold Qdiv; apply Qmult_le_compat_r; [assumption | discriminate]).
  set (m1 := (d1 / 60)%Q) in *. set (m2 := (d2 / 60)%Q) in *.
  assert (M2 : (0 < m2)%Q) by lra.
  assert (A : (0 <= x / m2)%Q) by (apply Qle_shift_div_l; lra).
  assert (B : (x / m2 <= x / m1)%Q).
  { apply Qle_shift_div_l; [exact M1|].
    assert (E : (x / m2 * m1 == x * (m1 / m2))%Q) by (field; lra).
    rewrite E.
    assert (F : (m1 / m2 <= 1)%Q) by (apply Qle_shift_div_r; lra).
    assert (G : (x * (m1 / m2) <= x * 1)%Q)
      by (apply Qmult_le_l; assumption).
    lra. }
  split.
  - change 0 with (Qfloor 0). apply Qfloor_resp_le. lra.
  - apply Qfloor_resp_le. lra.
Qed.

Lemma pace_falls_with_duration_witness :
  (0 < 45 # 10)%Q /\ (45 # 10 <= 6)%Q
  /\ 0 <= wpm results 6 <= wpm results (45 # 10).
Proof.
  split; [reflexivity|]. split; [discriminate|].
  apply (pace_falls_with_duration results (45 # 10) 6);
    [reflexivity | discriminate].
Defined.

End AnalyzerMore.

(** ** Further properties of the session *)

Section SessionMore.

Import Analyzer Session Spec Scenario Events Measure.

Open Scope string_scope.
Open Scope Z_scope.

(** *** Messages without a branch *)

(** X5: a decoded message other than [null] whose type is none of the five
    the handler knows (an interim transcript, an object without type, a
    number, an array) changes nothing and gets no reply, not even an
    error. *)
Theorem unknown_type_is_ignored (w : world) (now : Z) (data : json) :
  data <> JNull ->
  (forall t, In t known_types -> equals (type_of data) t = false) ->
  on_message now (Decoded data) w = (Normal tt, w).
Proof.
  intros Hnull Hno.
  destruct data as [|b|q|str|items|fields];
    [contradiction | reflexivity | reflexivity | reflexivity | reflexivity |].
  unfold on_message, try_catch, dispatch, bind, JSON_parse, Get, ret.
  cbn [type_of] in Hno.
  rewrite (Hno "transcript"), (Hno "eye_contact"), (Hno "face_detected"),
    (Hno "start"), (Hno "stop") by (cbn; tauto).
  reflexivity.
Qed.

Lemma unknown_type_is_ignored_witness :
  JObj [(lit "type", JStr (lit "interim_transcript"));
        (lit "transcript", JStr (lit "hello wor"))] <> JNull
  /\ after 1200 (encode (Interim (lit "hello wor"))) in_progress
     = in_progress.
Proof.
  split; [discriminate|].
  unfold after.
  change (encode (Interim (lit "hello wor")))
    with (Decoded (JObj [(lit "type", JStr (lit "interim_transcript"));
                         (lit "transcript", JStr (lit "hello wor"))])).
  rewrite (unknown_type_is_ignored in_progress 1200
             (JObj [(lit "type", JStr (lit "interim_transcript"));
                    (lit "transcript", JStr (lit "hello wor"))])).
  - reflexivity.
  - discriminate.
  - intros t [E|[E|[E|[E|[E|[]]]]]]; subst t; reflexivity.
Defined.

(** *** Stop *)

Lemma on_stop_outside (w : world) (now : Z) :
  avgEyeContact (eyeContactScores (session w)) = Unmodelled ->
  on_message now ev_stop w = (Unmodelled, w).
Proof.
  intros H.
  unfold on_message, try_catch, ev_stop, ev, dispatch, bind, JSON_parse, Get,
    ret.
  change (equals _ "transcript") with false.
  change (equals _ "eye_contact") with false.
  change (equals _ "face_detected") with false.
  change (equals _ "start") with false.
  change (equals _ "stop") with true.
  cbv iota. unfold stop, bind, get_session, lift. simpl session.
  rewrite H. reflexivity.
Qed.

(** What a [stop] does, whatever the average comes to. *)
Lemma on_stop_cases (w : world) (now : Z) :
  exists reply,
    (List.length reply <= 1)%nat
    /\ (forall w', session w' = session w ->
                   after now ev_stop w'
                   = {| session := session w;
                        sent := (sent w' ++ reply)%list |}).
Proof.
  destruct (avgEyeContact (eyeContactScores (session w))) as [avg|e|] eqn:A.
  - eexists. split; [|intros w' E; unfold after; rewrite (on_stop w' now avg);
                      [rewrite E; reflexivity | rewrite E; exact A]].
    simpl. lia.
  - eexists. split; [|intros w' E; unfold after; rewrite (on_stop_throw w' now e);
                      [rewrite E; reflexivity | rewrite E; exact A]].
    simpl. lia.
  - exists []. split; [simpl; lia|].
    intros w' E. unfold after. rewrite (on_stop_outside w' now).
    + destruct w' as [s' out']. simpl in *. subst s'.
      rewrite app_nil_r. reflexivity.
    + rewrite E. exact A.
Qed.

(** X6: a stop event never changes the session: transcript, start time,
    samples and face count stay, so that a second stop at the same instant
    gets the same reply as the first. *)
Theorem stop_keeps_session (w : world) (now : Z) :
  session (after now ev_stop w) = session w
  /\ exists reply,
      (List.length reply <= 1)%nat
      /\ sent (after now ev_stop w) = (sent w ++ reply)%list
      /\ sent (after now ev_stop (after now ev_stop w))
         = (sent w ++ reply ++ reply)%list.
Proof.
  destruct (on_stop_cases w now) as [reply [L H]].
  pose proof (H w eq_refl) as H1.
  pose proof (H (after now ev_stop w)) as H2.
  rewrite H1 in H2 |- *. cbn [session sent] in *.
  split; [reflexivity|].
  exists reply. split; [exact L|]. split; [reflexivity|].
  rewrite (H2 eq_refl). cbn [sent]. rewrite app_assoc. reflexivity.
Qed.

(** *** Replies *)

(** What the body of [try] sends: at most one message, none when it
    throws. *)
Lemma dispatch_sends (now : Z) (message : inbound) (w : world) :
  exists l,
    sent (snd (dispatch now message w)) = (sent w ++ l)%list
    /\ (List.length l <= 1)%nat
    /\ (forall e, fst (dispatch now message w) = Throw e -> l = []).
Proof.
  assert (leaf : forall (o : outcome unit) (s : sessionData) (l : list outbound),
             (List.length l <= 1)%nat ->
             (forall e, o = Throw e -> l = []) ->
             exists l',
               sent (snd (o, {| session := s; sent := (sent w ++ l)%list |}))
               = (sent w ++ l')%list
               /\ (List.length l' <= 1)%nat
               /\ (forall e,
                      fst (o, {| session := s;
                                 sent := (sent w ++ l)%list |}) = Throw e ->
                      l' = [])).
  { intros o s l L T. exists l. repeat split; assumption. }
  assert (none : forall o : outcome unit,
             exists l, sent (snd (o, w)) = (sent w ++ l)%list
                       /\ (List.length l <= 1)%nat
                       /\ (forall e, fst (o, w) = Throw e -> l = [])).
  { intros o. exists []. rewrite app_nil_r. repeat split. simpl. lia. }
  assert (kept : forall (o : outcome unit) (s : sessionData),
             exists l,
               sent (snd (o, {| session := s; sent := sent w |}))
               = (sent w ++ l)%list
               /\ (List.length l <= 1)%nat
               /\ (forall e,
                      fst (o, {| session := s; sent := sent w |}) = Throw e ->
                      l = [])).
  { intros o s. exists []. cbn. rewrite app_nil_r. repeat split. lia. }
  destruct message as [description|data]; [apply none|].
  destruct data as [|b|q|str|items|fields]; try apply none.
  unfold dispatch, bind, JSON_parse, Get, ret. cbv iota beta.
  destruct (equals (own (lit "type") fields) "transcript").
  { unfold log_substring, append_transcript, bind, get_session, set_session,
      throw, ret.
    destruct (own (lit "transcript") fields) as [[|b|q|str|items|fs]|];
      first [apply none | apply kept]. }
  destruct (equals (own (lit "type") fields) "eye_contact").
  { unfold push_score, log_template, bind, get_session, set_session, throw,
      ret. cbv iota beta.
    destruct (own (lit "score") fields) as [j|];
      [destruct (printable j)|]; apply kept. }
  destruct (equals (own (lit "type") fields) "face_detected").
  { apply kept. }
  destruct (equals (own (lit "type") fields) "start").
  { apply (leaf (Normal tt)); [simpl; lia | discriminate]. }
  destruct (equals (own (lit "type") fields) "stop").
  { unfold stop, bind, get_session, ws_send, lift. cbv iota beta.
    destruct (avgEyeContact (eyeContactScores (session w))).
    - apply (leaf (Normal tt)); [simpl; lia | discriminate].
    - apply none.
    - apply none. }
  apply none.
Qed.

(** X7: every inbound message gets at most one reply, added after what was
    sent before, and no error leaves the handler: a failure of the body is
    turned into the reply. *)
Theorem at_most_one_reply (now : Z) (message : inbound) (w : world) :
  (exists l, sent (after now message w) = (sent w ++ l)%list
             /\ (List.length l <= 1)%nat)
  /\ (forall e, fst (on_message now message w) <> Throw e).
Proof.
  destruct (dispatch_sends now message w) as [l [S [L T]]].
  unfold after, on_message, try_catch.
  destruct (dispatch now message w) as [[u|e|] w1] eqn:D; cbn [fst snd] in *.
  - split; [exists l; split; assumption | discriminate].
  - rewrite (T e eq_refl) in S. rewrite app_nil_r in S.
    split; [|discriminate].
    exists [error (message_of e)]. cbn. rewrite S. split; [reflexivity | lia].
  - split; [exists l; split; assumption | discriminate].
Qed.

(** X8: a message that is not JSON, the value [null], and a transcript
    event whose transcript is missing or is not a string are each answered
    by one error message and change nothing in the session. *)
Theorem rejected_messages (w : world) (now : Z) :
  (forall description,
      after now (Undecodable description) w
      = {| session := session w;
           sent := (sent w ++ [error description])%list |})
  /\ after now (Decoded JNull) w
     = {| session := session w;
          sent := (sent w
                   ++ [error "Cannot read properties of null (reading 'type')"]
                  )%list |}
  /\ (forall fields,
         equals (own (lit "type") fields) "transcript" = true ->
         (forall fragment,
             own (lit "transcript") fields <> Some (JStr fragment)) ->
         exists description,
           after now (Decoded (JObj fields)) w
           = {| session := session w;
                sent := (sent w ++ [error description])%list |}).
Proof.
  split; [reflexivity|]. split; [reflexivity|].
  intros fields Ht Hs.
  unfold after, on_message, try_catch, dispatch, bind, JSON_parse, Get, ret.
  rewrite Ht. unfold log_substring, throw.
  destruct (own (lit "transcript") fields) as [[|b|q|str|items|fs]|];
    try (eexists; reflexivity).
  exfalso. exact (Hs str eq_refl).
Qed.

Lemma rejected_messages_witness :
  equals (own (lit "type")
              [(lit "type", JStr (lit "transcript"));
               (lit "transcript", JNum 7)]) "transcript" = true
  /\ session (after 1200
                (ev "transcript" [(lit "transcript", JNum 7)]) in_progress)
     = session in_progress.
Proof.
  split; [reflexivity|].
  destruct (rejected_messages in_progress 1200) as [_ [_ H]].
  destruct (H [(lit "type", JStr (lit "transcript"));
               (lit "transcript", JNum 7)] eq_refl) as [d E].
  - intros fragment. discriminate.
  - unfold ev. rewrite E. reflexivity.
Defined.

(** *** The session as a function of the events *)

Lemma stop_session (w : world) (now : Z) :
  session (after now ev_stop w) = session w.
Proof.
  destruct (on_stop_cases w now) as [reply [_ H]].
  rewrite (H w eq_refl). reflexivity.
Qed.

(** The session after each event of the client. *)
Lemma session_after_event (w : world) (now : Z) (e : event) :
  session (after now (encode e) w)
  = match e with
    | Start _ => fresh now
    | Fragment f =>
        {| transcript := appended (transcript (session w)) f;
           startTime := startTime (session w);
           eyeContactScores := eyeContactScores (session w);
           facesDetected := facesDetected (session w) |}
    | Gaze z =>
        {| transcript := transcript (session w);
           startTime := startTime (session w);
           eyeContactScores :=
             (eyeContactScores (session w) ++ [sample (inject_Z z)])%list;
           facesDetected := facesDetected (session w) |}
    | Face =>
        {| transcript := transcript (session w);
           startTime := startTime (session w);
           eyeContactScores := eyeContactScores (session w);
           facesDetected := facesDetected (session w) + 1 |}
    | Interim _ | Stop => session w
    end.
Proof.
  destruct e as [q|f|f|z| |]; try reflexivity.
  apply stop_session.
Qed.

Lemma has_start_app (l : list (Z * event)) (e : Z * event) :
  existsb is_start (l ++ [e]) = existsb is_start l || is_start e.
Proof. rewrite existsb_app. cbn. rewrite orb_false_r. reflexivity. Qed.

Lemma last_start_app (l : list (Z * event)) (e : Z * event) :
  last_start (l ++ [e])
  = if is_start e then Some (fst e) else last_start l.
Proof.
  induction l as [|x l IH]; cbn [app last_start].
  - destruct (is_start e); reflexivity.
  - rewrite IH. destruct (is_start e); reflexivity.
Qed.

Lemma since_start_app (l : list (Z * event)) (e : Z * event) :
  since_start (l ++ [e])
  = if is_start e then [] else (since_start l ++ [snd e])%list.
Proof.
  induction l as [|x l IH]; cbn [app since_start].
  - cbn. destruct (is_start e); reflexivity.
  - rewrite has_start_app, IH.
    destruct (is_start e) eqn:E.
    + rewrite orb_true_r. reflexivity.
    + rewrite orb_false_r.
      destruct (existsb is_start l); [reflexivity|].
      rewrite map_app. destruct (is_start x); reflexivity.
Qed.

Lemma fragments_of_app (a b : list event) :
  fragments_of (a ++ b) = (fragments_of a ++ fragments_of b)%list.
Proof.
  induction a as [|[q|f|f|z| |] a IH]; cbn; rewrite ?IH; reflexivity.
Qed.

Lemma gazes_of_app (a b : list event) :
  gazes_of (a ++ b) = (gazes_of a ++ gazes_of b)%list.
Proof.
  induction a as [|[q|f|f|z| |] a IH]; cbn; rewrite ?IH; reflexivity.
Qed.

Lemma faces_of_app (a b : list event) :
  faces_of (a ++ b) = faces_of a + faces_of b.
Proof.
  induction a as [|[q|f|f|z| |] a IH]; cbn [app faces_of]; rewrite ?IH; lia.
Qed.

Lemma run_app (l : list (Z * inbound)) (m : Z * inbound) (w : world) :
  run (l ++ [m]) w = after (fst m) (snd m) (run l w).
Proof. unfold run. rewrite fold_left_app. reflexivity. Qed.

(** X9: after any list of events of the protocol, interleaved in any way,
    the session holds what came since the last start and nothing older: the
    fragments appended in order to an empty transcript, the start time of
    that start, the gaze samples in order and the number of faces.  Interim
    transcripts and stops leave no trace; without a start the events add to
    the session that was there. *)
Theorem session_is_summary (timed : list (Z * event)) (w : world) :
  session (run (encode_all timed) w) = summary timed (session w).
Proof.
  induction timed as [|[now e] timed IH] using rev_ind.
  - destruct w as [[t s c f] out]. unfold summary. cbn.
    rewrite app_nil_r, Z.add_0_r. reflexivity.
  - unfold encode_all in *. rewrite map_app. cbn [map fst snd].
    rewrite run_app. cbn [fst snd].
    rewrite session_after_event, IH. unfold summary.
    rewrite last_start_app, since_start_app. unfold is_start. cbn [fst snd].
    destruct e as [q|f|f|z| |];
      rewrite ?fragments_of_app, ?gazes_of_app, ?faces_of_app, ?fold_left_app,
        ?map_app;
      cbn [fragments_of gazes_of faces_of fold_left map app transcript
           startTime eyeContactScores facesDetected fresh];
      rewrite ?app_nil_r, ?Z.add_0_r, ?app_assoc, ?Z.add_assoc;
      reflexivity.
Qed.

(** *** The session at stop *)

(** A session: the events since the last start, or since the connection
    was opened when no start came.  Its transcript, its samples and its
    faces are those of these events alone. *)
Lemma session_since_start (timed : list (Z * event)) (w0 : world) :
  last_start timed <> None \/ (exists opened, session w0 = fresh opened) ->
  exists t,
    session (run (encode_all timed) w0)
    = {| transcript :=
           fold_left appended (fragments_of (since_start timed)) [];
         startTime := t;
         eyeContactScores :=
           map (fun z => sample (inject_Z z)) (gazes_of (since_start timed));
         facesDetected := faces_of (since_start timed) |}.
Proof.
  induction timed as [|[now e] timed IH] using rev_ind; intros H.
  - destruct H as [H|[opened H]]; [contradiction H; reflexivity|].
    exists opened. exact H.
  - unfold encode_all in *. rewrite map_app. cbn [map fst snd].
    rewrite run_app. cbn [fst snd]. rewrite session_after_event.
    rewrite last_start_app in H. rewrite since_start_app.
    unfold is_start in *. cbn [fst snd] in *.
    destruct e as [q|f|f|z| |];
      try (exists now; reflexivity);
      destruct (IH H) as [t E]; rewrite E; exists t;
      rewrite ?fragments_of_app, ?gazes_of_app, ?faces_of_app, ?fold_left_app,
        ?map_app;
      cbn [fragments_of gazes_of faces_of fold_left map app transcript
           startTime eyeContactScores facesDetected];
      rewrite ?app_nil_r, ?Z.add_0_r; reflexivity.
Qed.

(** The samples of the protocol have an average. *)
Lemma average_of_samples (scores : list Z) :
  exists avg,
    avgEyeContact (map (fun z => sample (inject_Z z)) scores) = Normal avg.
Proof.
  destruct scores as [|z scores].
  - exists 0. reflexivity.
  - destruct (avgEyeContact_samples (map inject_Z (z :: scores)))
      as [k [A _]]; [discriminate|].
    rewrite map_map in A. exists k. exact A.
Qed.

(** The reply to a stop at the end of a session. *)
Lemma stop_at_end (timed : list (Z * event)) (w0 : world) (now : Z) :
  last_start timed <> None \/ (exists opened, session w0 = fresh opened) ->
  let w := run (encode_all timed) w0 in
  transcript (session w)
  = fold_left appended (fragments_of (since_start timed)) []
  /\ exists avg,
      avgEyeContact (eyeContactScores (session w)) = Normal avg
      /\ after now ev_stop w
         = {| session := session w;
              sent :=
                (sent w
                 ++ [final_analysis (trim (transcript (session w)))
                       (analyzeTranscript (transcript (session w))
                          (duration_at now (session w)) avg
                          (facesDetected (session w)))])%list |}.
Proof.
  intros H w. destruct (session_since_start timed w0 H) as [t E].
  fold w in E. split; [rewrite E; reflexivity|].
  destruct (average_of_samples (gazes_of (since_start timed))) as [avg A].
  exists avg.
  assert (A' : avgEyeContact (eyeContactScores (session w)) = Normal avg)
    by (rewrite E; exact A).
  split; [exact A'|].
  unfold after. rewrite (on_stop w now avg A'). reflexivity.
Qed.



(** *** The average of what the classifier sends *)

Lemma sum_between (samples : list Z) (lo hi : Z) :
  (forall z, In z samples -> lo <= z <= hi) ->
  (inject_Z lo * inject_Z (Z.of_nat (List.length samples))
   <= fold_right Qplus 0 (map inject_Z samples)
   <= inject_Z hi * inject_Z (Z.of_nat (List.length samples)))%Q.
Proof.
  induction samples as [|z samples IH]; intros H.
  - cbn [List.length map fold_right]. change (inject_Z (Z.of_nat 0)) with 0%Q.
    split; lra.
  - destruct IH as [A B]; [intros y Hy; apply H; right; exact Hy|].
    destruct (H z (or_introl eq_refl)) as [Hlo Hhi].
    rewrite Zle_Qle in Hlo, Hhi.
    cbn [List.length map fold_right]. rewrite Nat2Z.inj_succ.
    unfold Z.succ. rewrite inject_Z_plus. change (inject_Z 1) with 1%Q.
    set (n := inject_Z (Z.of_nat (List.length samples))) in *.
    set (total := fold_right Qplus 0%Q (map inject_Z samples)) in *.
    assert (E1 : (inject_Z lo * (n + 1) == inject_Z lo * n + inject_Z lo)%Q)
      by ring.
    assert (E2 : (inject_Z hi * (n + 1) == inject_Z hi * n + inject_Z hi)%Q)
      by ring.
    rewrite E1, E2.
    set (a := (inject_Z lo * n)%Q) in *. set (b := (inject_Z hi * n)%Q) in *.
    split; lra.
Qed.

Lemma rounds_between (x : Q) (k lo hi : Z) :
  rounds_to x k -> (inject_Z lo <= x <= inject_Z hi)%Q -> lo <= k <= hi.
Proof.
  unfold rounds_to. intros [A B] [L H].
  assert (C : (inject_Z lo < inject_Z k + 1)%Q) by lra.
  assert (D : (inject_Z k < inject_Z hi + 1)%Q) by lra.
  change 1%Q with (inject_Z 1) in C, D.
  rewrite <- inject_Z_plus in C, D. rewrite <- Zlt_Qlt in C, D. lia.
Qed.

Lemma average_between (samples : list Z) (lo hi : Z) :
  samples <> [] ->
  (forall z, In z samples -> lo <= z <= hi) ->
  exists k,
    avgEyeContact (map (fun z => sample (inject_Z z)) samples) = Normal k
    /\ lo <= k <= hi.
Proof.
  intros Hne Hin.
  destruct (avgEyeContact_samples (map inject_Z samples)) as [k [A R]].
  { destruct samples; [contradiction | discriminate]. }
  rewrite map_map in A. exists k. split; [exact A|].
  apply (rounds_between _ _ _ _ R).
  pose proof (sum_between samples lo hi Hin) as [S1 S2].
  unfold mean. rewrite length_map.
  assert (N : (0 < inject_Z (Z.of_nat (List.length samples)))%Q).
  { change 0%Q with (inject_Z 0). rewrite <- Zlt_Qlt.
    destruct samples; [contradiction | cbn [List.length]; lia]. }
  split.
  - apply Qle_shift_div_l; assumption.
  - apply Qle_shift_div_r; assumption.
Qed.

(** X10: the scores the classifier gives for the faces of a session, as
    the stop branch averages them, come to an average between 40 and 90,
    whatever the faces and the frame. *)
Theorem classifier_average (boxes : list Gaze.box)
  (videoWidth videoHeight : float) :
  boxes <> [] ->
  exists k,
    avgEyeContact
      (map (fun b =>
              sample (inject_Z (Gaze.gaze_score b videoWidth videoHeight)))
           boxes)
    = Normal k
    /\ 40 <= k <= 90.
Proof.
  intros Hne.
  destruct (average_between
              (map (fun b => Gaze.gaze_score b videoWidth videoHeight) boxes)
              40 90) as [k [A B]].
  - destruct boxes; [contradiction | discriminate].
  - intros z Hz. apply in_map_iff in Hz. destruct Hz as [b [E _]]. subst z.
    destruct (gaze_score_threshold b videoWidth videoHeight) as [E I].
    rewrite E. cbn [In] in I. lia.
  - rewrite map_map in A. exists k. split; assumption.
Qed.

Lemma classifier_average_witness :
  [centred; off_centre] <> []
  /\ exists k,
      avgEyeContact
        (map (fun b => sample (inject_Z (Gaze.gaze_score b 640 480)))
             [centred; off_centre])
      = Normal k
      /\ 40 <= k <= 90.
Proof.
  split; [discriminate|].
  apply (classifier_average [centred; off_centre] 640 480). discriminate.
Defined.

(** *** The transcript returned *)

Lemma ends_in_space_rev (s : jsstring) (before : bool) :
  ends_in_space before s
  = match rev s with [] => before | c :: _ => is_space c end.
Proof.
  revert before. induction s as [|c s IH]; intros before.
  - reflexivity.
  - cbn [ends_in_space rev]. rewrite IH.
    destruct (rev s); reflexivity.
Qed.

Lemma trim_clean (s : jsstring) :
  clean_start s = true -> clean_end s = true -> trim s = s.
Proof.
  unfold clean_start, clean_end, trim. intros Hs He.
  assert (E : trim_start s = s).
  { destruct s as [|c s]; [reflexivity|]. cbn [trim_start].
    apply negb_true_iff in Hs. rewrite Hs. reflexivity. }
  rewrite E. apply negb_true_iff in He. rewrite ends_in_space_rev in He.
  destruct (rev s) as [|c r] eqn:R.
  - discriminate.
  - cbn [trim_start]. rewrite He. rewrite <- R. apply rev_involutive.
Qed.

Lemma joined_spaced (rest : list jsstring) (f text : jsstring) :
  fold_left appended (f :: rest) text
  = (text ++ 32%N :: spaced f rest)%list.
Proof.
  revert f text. induction rest as [|g rest IH]; intros f text.
  - reflexivity.
  - change (fold_left appended (f :: g :: rest) text)
      with (fold_left appended (g :: rest) (appended text f)).
    rewrite IH. unfold appended. rewrite <- app_assoc. reflexivity.
Qed.

Lemma spaced_start (rest : list jsstring) (f : jsstring) :
  clean_start f = true -> clean_start (spaced f rest) = true.
Proof.
  destruct f as [|c f]; [discriminate|].
  destruct rest; intros H; exact H.
Qed.

Lemma spaced_end (rest : list jsstring) (f : jsstring) :
  ends_in_space true (spaced f rest) = ends_in_space true (last rest f).
Proof.
  revert f. induction rest as [|g rest IH]; intros f.
  - reflexivity.
  - cbn [spaced]. rewrite ends_in_space_app.
    change (is_space 32) with true. rewrite IH, last_cons. reflexivity.
Qed.

(** X11: in every session (the events of the protocol since the last
    start, or since the connection was opened), when the first fragment is
    not empty and does not start with white space, and the last one is not
    empty and does not end with white space, the transcript the stop branch
    returns is the fragments of the session in order with one space between
    two of them; the analyzer is given that text after a space. *)
Theorem returned_transcript (w0 : world) (timed : list (Z * event))
  (now : Z) (f : jsstring) (rest : list jsstring) :
  last_start timed <> None \/ (exists opened, session w0 = fresh opened) ->
  fragments_of (since_start timed) = f :: rest ->
  clean_start f = true ->
  clean_end (last rest f) = true ->
  let w := run (encode_all timed) w0 in
  exists avg,
    avgEyeContact (eyeContactScores (session w)) = Normal avg
    /\ sent (after now ev_stop w)
       = (sent w
          ++ [final_analysis (spaced f rest)
                (analyzeTranscript (32%N :: spaced f rest)
                   (duration_at now (session w)) avg
                   (facesDetected (session w)))])%list.
Proof.
  intros H F Hs He w.
  destruct (stop_at_end timed w0 now H) as [T [avg [A S]]].
  fold w in T, A, S. exists avg. split; [exact A|].
  rewrite S. cbn [sent]. rewrite T, F, joined_spaced. cbn [app].
  do 3 f_equal.
  unfold trim. cbn [trim_start]. change (is_space 32) with true. cbv iota.
  apply trim_clean.
  - apply spaced_start. exact Hs.
  - unfold clean_end in *. rewrite spaced_end. exact He.
Qed.

Lemma returned_transcript_witness :
  (last_start
     [(3000, Start (lit "Why should we hire you?")); (3500, Gaze 90);
      (4000, Fragment (lit "thank you")); (4200, Interim (lit "very"));
      (5000, Fragment (lit "very much")); (5500, Gaze 75)] <> None
   \/ exists opened, session in_progress = fresh opened)
  /\ clean_start (lit "thank you") = true
  /\ clean_end (last [lit "very much"] (lit "thank you")) = true
  /\ exists result,
      sent (after 9000 ev_stop
              (run (encode_all
                      [(3000, Start (lit "Why should we hire you?"));
                       (3500, Gaze 90);
                       (4000, Fragment (lit "thank you"));
                       (4200, Interim (lit "very"));
                       (5000, Fragment (lit "very much")); (5500, Gaze 75)])
                   in_progress))
      = [status "Recording started - Look at the camera and speak naturally!";
         final_analysis (lit "thank you very much") result].
Proof.
  assert (H : last_start
     [(3000, Start (lit "Why should we hire you?")); (3500, Gaze 90);
      (4000, Fragment (lit "thank you")); (4200, Interim (lit "very"));
      (5000, Fragment (lit "very much")); (5500, Gaze 75)] <> None
   \/ exists opened, session in_progress = fresh opened)
    by (left; discriminate).
  split; [exact H|]. split; [reflexivity|]. split; [reflexivity|].
  destruct (returned_transcript in_progress _ 9000 (lit "thank you")
              [lit "very much"] H eq_refl eq_refl eq_refl) as [avg [_ E]].
  eexists. rewrite E. vm_compute. reflexivity.
Defined.

End SessionMore.

(** ** Further properties of the client *)

Section ClientMore.

Import Analyzer Session Gaze Client Spec Scenario Events Measure.

Open Scope string_scope.
Open Scope Z_scope.

(** *** The indicator *)

(** X14: a tick of the detector on a frame whose width is not falsy.  With
    a face, the score shown is one of 90, 75, 60 and 40 and is the score
    sent when the socket is open; the indicator is green exactly when the
    first face passes the test at half the tolerance or the test at the
    tolerance, as the program computes them in binary64, yellow exactly
    when it passes neither but passes the test at one and a half
    tolerances, and red exactly when it passes none of the three.  Without
    a face the tick shows 0, in red, and sends nothing.  While the width is
    falsy the tick does nothing. *)
Theorem indicator_of_tick (videoWidth videoHeight : float)
  (socket_open : bool) (detections : list box) :
  (falsy videoWidth = true ->
   detectEyeContact videoWidth videoHeight socket_open detections = None)
  /\ (falsy videoWidth = false ->
      exists t,
        detectEyeContact videoWidth videoHeight socket_open detections
        = Some t
        /\ match detections with
           | [] =>
               faceDetected t = false /\ eyeContactScore t = 0
               /\ indicator (eyeContactScore t) = red /\ sent_score t = None
           | b :: _ =>
               let near :=
                 within_half b videoWidth videoHeight
                 || within_tolerance b videoWidth videoHeight in
               let wide := within_wide b videoWidth videoHeight in
               faceDetected t = true
               /\ sent_score t
                  = (if socket_open then Some (eyeContactScore t) else None)
               /\ In (eyeContactScore t) [90; 75; 60; 40]
               /\ (near = true <-> indicator (eyeContactScore t) = green)
               /\ (near = false /\ wide = true
                   <-> indicator (eyeContactScore t) = yellow)
               /\ (near = false /\ wide = false
                   <-> indicator (eyeContactScore t) = red)
           end).
Proof.
  unfold detectEyeContact. split; intros HW; rewrite HW; [reflexivity|].
  destruct detections as [|b rest].
  - eexists. split; [reflexivity|]. repeat split.
  - eexists. split; [reflexivity|].
    cbn [faceDetected eyeContactScore sent_score]. cbv zeta.
    split; [reflexivity|]. split; [reflexivity|].
    destruct (gaze_score_threshold b videoWidth videoHeight) as [E I].
    rewrite E. split; [exact I|]. clear E I. unfold threshold_score.
    destruct (within_half b videoWidth videoHeight);
      [|destruct (within_tolerance b videoWidth videoHeight);
        [|destruct (within_wide b videoWidth videoHeight)]];
      cbn; repeat split; intros; try discriminate; try reflexivity;
      repeat match goal with
             | H : _ /\ _ |- _ => destruct H
             end;
      discriminate.
Qed.

Lemma indicator_of_tick_witness :
  falsy 848 = false
  /\ exists t,
      detectEyeContact 848 480 true [wide_frame_face] = Some t
      /\ sent_score t = Some 60
      /\ indicator (eyeContactScore t) = yellow.
Proof.
  split; [reflexivity|].
  destruct (indicator_of_tick 848 480 true [wide_frame_face])
    as [_ some].
  destruct (some eq_refl) as [t [E [_ [S [_ [_ [Y _]]]]]]].
  exists t. split; [exact E|].
  assert (Y' : indicator (eyeContactScore t) = yellow).
  { apply Y. split; vm_compute; reflexivity. }
  split; [|exact Y'].
  rewrite S. vm_compute in E. injection E as E. rewrite <- E. reflexivity.
Defined.

(** *** The clock *)

Lemma clocks_ok : forallb clock_ok (seq 0 (Z.to_nat 6000)) = true.
Proof. vm_compute. reflexivity. Qed.

(** X15: below 100 minutes [formatTime] shows two digits of minutes, a
    colon and two digits of seconds, and the display reads back as the
    number of seconds: two different times never show the same. *)
Theorem formatTime_clock (seconds : Z) :
  0 <= seconds < 6000 ->
  formatTime seconds = clock seconds
  /\ seconds_shown (formatTime seconds) = Some seconds.
Proof.
  intros H.
  pose proof clocks_ok as A. rewrite forallb_forall in A.
  specialize (A (Z.to_nat seconds)).
  assert (I : In (Z.to_nat seconds) (seq 0 (Z.to_nat 6000)))
    by (apply in_seq; lia).
  apply A in I. unfold clock_ok in I.
  rewrite Z2Nat.id in I by lia.
  apply andb_true_iff in I. destruct I as [E S].
  apply String.eqb_eq in E. split; [exact E|].
  destruct (seconds_shown (formatTime seconds)) as [m|]; [|discriminate].
  apply Z.eqb_eq in S. subst m. reflexivity.
Qed.

Lemma formatTime_clock_witness :
  0 <= 754 < 6000 /\ formatTime 754 = "12:34".
Proof.
  split; [lia|].
  destruct (formatTime_clock 754 ltac:(lia)) as [E _].
  rewrite E. reflexivity.
Defined.

(** *** The question *)

(** X16: for every value that [Math.random] can return, at least 0 and
    below 1, the question picked is defined and is one of the ten of the
    list. *)
Theorem question_is_listed (random : Q) :
  (0 <= random)%Q -> (random < 1)%Q ->
  exists q, question random = Some q /\ In q interviewQuestions.
Proof.
  intros H0 H1. unfold question.
  change (inject_Z (Z.of_nat (List.length interviewQuestions))) with 10%Q.
  set (i := Qfloor (random * 10)).
  assert (Hi : 0 <= i < 10).
  { subst i. split.
    - change 0 with (Qfloor 0). apply Qfloor_resp_le. lra.
    - pose proof (Qfloor_le (random * 10)) as L.
      assert (B : (inject_Z (Qfloor (random * 10)) < inject_Z 10)%Q)
        by (change (inject_Z 10) with 10%Q; lra).
      rewrite <- Zlt_Qlt in B. exact B. }
  replace (i <? 0) with false by lia.
  destruct (nth_error interviewQuestions (Z.to_nat i)) as [q|] eqn:E.
  - exists q. split; [reflexivity|]. exact (nth_error_In _ _ E).
  - apply nth_error_None in E. cbn [List.length interviewQuestions] in E. lia.
Qed.

Lemma question_is_listed_witness :
  (0 <= 37 # 100)%Q /\ (37 # 100 < 1)%Q
  /\ question (37 # 100) = Some "Why do you want to work here?".
Proof.
  split; [discriminate|]. split; [reflexivity|].
  destruct (question_is_listed (37 # 100)) as [q [E _]];
    [discriminate | reflexivity |].
  rewrite E. vm_compute in E. exact (eq_sym E).
Defined.

(** *** Recognition results *)

Lemma gather_texts (results : list recognition_result)
  (finalTranscript newInterimTranscript : jsstring) :
  gather results finalTranscript newInterimTranscript
  = ((finalTranscript ++ final_text (filter isFinal results))%list,
     (newInterimTranscript
      ++ flat_map heard (filter (fun r => negb (isFinal r)) results))%list).
Proof.
  revert finalTranscript newInterimTranscript.
  induction results as [|r results IH]; intros f i.
  - cbn. rewrite !app_nil_r. reflexivity.
  - cbn [gather filter]. destruct (isFinal r); cbn [negb].
    + rewrite IH. unfold final_text. cbn [flat_map].
      rewrite <- !app_assoc. reflexivity.
    + rewrite IH. cbn [flat_map]. rewrite <- !app_assoc. reflexivity.
Qed.

Lemma final_text_truthy (finals : list recognition_result) :
  truthy (final_text finals)
  = match finals with [] => false | _ :: _ => true end.
Proof.
  destruct finals as [|r finals]; [reflexivity|].
  unfold final_text. cbn [flat_map].
  destruct (heard r); reflexivity.
Qed.

(** What an open socket is given for an event. *)
Lemma onresult_sends (now : Z) (resultIndex : nat)
  (results : list recognition_result) (d : display) :
  exists interim,
    (interim = []
     \/ exists text,
         interim = [ev "interim_transcript" [(lit "transcript", JStr text)]])
    /\ snd (onresult now true resultIndex results d)
       = (interim
          ++ match filter isFinal (skipn resultIndex results) with
             | [] => []
             | finals => [ev_transcript (trim (final_text finals))]
             end)%list.
Proof.
  unfold onresult. rewrite gather_texts. cbn [app snd].
  rewrite final_text_truthy, !andb_true_r.
  eexists. split.
  2:{ f_equal.
      destruct (filter isFinal (skipn resultIndex results)); reflexivity. }
  destruct (truthy _); [right; eexists; reflexivity | left; reflexivity].
Qed.

Lemma words_scan_spaces (a : jsstring) (in_word : bool) :
  forallb is_space a = true -> words_scan in_word a = 0%nat.
Proof.
  revert in_word. induction a as [|c a IH]; intros in_word H.
  - reflexivity.
  - cbn [forallb] in H. apply andb_true_iff in H. destruct H as [Hc Ha].
    cbn [words_scan]. rewrite Hc. apply IH. exact Ha.
Qed.

Lemma words_spaces_left (a s : jsstring) :
  forallb is_space a = true -> words (a ++ s)%list = words s.
Proof.
  unfold words. induction a as [|c a IH]; intros H.
  - reflexivity.
  - cbn [forallb] in H. apply andb_true_iff in H. destruct H as [Hc Ha].
    cbn [app words_scan]. rewrite Hc. apply IH. exact Ha.
Qed.

Lemma words_spaces_right (s z : jsstring) (in_word : bool) :
  forallb is_space z = true ->
  words_scan in_word (s ++ z)%list = words_scan in_word s.
Proof.
  intros H. revert in_word. induction s as [|c s IH]; intros in_word.
  - cbn [app]. rewrite (words_scan_spaces z in_word H). reflexivity.
  - cbn [app words_scan]. rewrite !IH. reflexivity.
Qed.

Lemma trim_start_shape (s : jsstring) :
  exists a,
    forallb is_space a = true
    /\ s = (a ++ trim_start s)%list
    /\ (trim_start s = [] \/ clean_start (trim_start s) = true).
Proof.
  induction s as [|c s [a [Ha [E C]]]].
  - exists []. repeat split. left. reflexivity.
  - cbn [trim_start]. destruct (is_space c) eqn:Hc.
    + exists (c :: a). cbn [forallb app]. rewrite Hc, Ha, <- E.
      repeat split. exact C.
    + exists []. repeat split. right. cbn [clean_start]. rewrite Hc.
      reflexivity.
Qed.

(** What [trim] takes away is white space, and what it leaves, if
    anything, neither starts nor ends with white space. *)
Lemma trim_shape (s : jsstring) :
  exists a z,
    forallb is_space a = true /\ forallb is_space z = true
    /\ s = (a ++ trim s ++ z)%list
    /\ (trim s = [] \/ (clean_start (trim s) = true
                        /\ clean_end (trim s) = true)).
Proof.
  destruct (trim_start_shape s) as [a [Ha [Es Cs]]].
  destruct (trim_start_shape (rev (trim_start s))) as [b [Hb [Er Cr]]].
  unfold trim. set (y := trim_start (rev (trim_start s))) in *.
  assert (Et : trim_start s = (rev y ++ rev b)%list).
  { rewrite <- rev_app_distr, <- Er. symmetry. apply rev_involutive. }
  exists a, (rev b). split; [exact Ha|]. split.
  { rewrite forallb_forall in Hb |- *. intros c Hc. apply Hb.
    apply in_rev. exact Hc. }
  split; [rewrite <- Et; exact Es|].
  destruct Cr as [Cr|Cr].
  - left. rewrite Cr. reflexivity.
  - right. split.
    + destruct (rev y) as [|c r] eqn:R.
      * apply (f_equal (@rev N)) in R. rewrite rev_involutive in R.
        rewrite R in Cr. discriminate.
      * destruct Cs as [Cs|Cs].
        -- rewrite Cs in Et. discriminate.
        -- rewrite Et in Cs. exact Cs.
    + unfold clean_end. rewrite ends_in_space_rev, rev_involutive.
      destruct y as [|c y]; [discriminate|].
      cbn [clean_start] in Cr. rewrite negb_true_iff in *.
      rewrite Cr. reflexivity.
Qed.

Lemma words_trim (s : jsstring) : words (trim s) = words s.
Proof.
  destruct (trim_shape s) as [a [z [Ha [Hz [E _]]]]].
  rewrite E at 2. rewrite (words_spaces_left a _ Ha).
  unfold words. rewrite (words_spaces_right _ z false Hz). reflexivity.
Qed.

Lemma words_final_text (finals : list recognition_result) :
  words (final_text finals) = result_words finals.
Proof.
  induction finals as [|r finals IH]; [reflexivity|].
  unfold final_text in *. cbn [flat_map result_words fold_right].
  rewrite <- app_assoc. cbn [app]. unfold words in *.
  rewrite words_scan_app, IH. reflexivity.
Qed.

Lemma has_final (l : list recognition_result) :
  existsb isFinal l
  = match filter isFinal l with [] => false | _ :: _ => true end.
Proof.
  induction l as [|r l IH]; [reflexivity|].
  cbn [existsb filter]. destruct (isFinal r); [reflexivity | exact IH].
Qed.

(** X17: of a recognition event the client sends a transcript message
    exactly when the socket is open and one of the results from
    [resultIndex] on is final.  Its fragment has the words of those final
    results, in number, and is empty or neither starts nor ends with white
    space.  With a closed socket nothing is sent. *)
Theorem transcript_message (now : Z) (resultIndex : nat)
  (results : list recognition_result) (d : display) :
  snd (onresult now false resultIndex results d) = []
  /\ exists interim fragment,
      (interim = []
       \/ exists text,
           interim
           = [ev "interim_transcript" [(lit "transcript", JStr text)]])
      /\ snd (onresult now true resultIndex results d)
         = (interim
            ++ (if existsb isFinal (skipn resultIndex results)
                then [ev_transcript fragment] else []))%list
      /\ words fragment
         = result_words (filter isFinal (skipn resultIndex results))
      /\ (fragment = []
          \/ (clean_start fragment = true /\ clean_end fragment = true)).
Proof.
  split.
  { unfold onresult. rewrite gather_texts. cbn [snd].
    rewrite !andb_false_r. reflexivity. }
  destruct (onresult_sends now resultIndex results d) as [interim [I S]].
  exists interim,
    (trim (final_text (filter isFinal (skipn resultIndex results)))).
  split; [exact I|]. split.
  - rewrite S. f_equal. rewrite has_final.
    destruct (filter isFinal (skipn resultIndex results)); reflexivity.
  - split.
    + rewrite words_trim. apply words_final_text.
    + destruct (trim_shape
                  (final_text (filter isFinal (skipn resultIndex results))))
        as [_ [_ [_ [_ [_ C]]]]].
      exact C.
Qed.

(** *** From the recognition results to the word count *)

Lemma run_cat (l1 l2 : list (Z * inbound)) (w : world) :
  run (l1 ++ l2) w = run l2 (run l1 w).
Proof. unfold run. apply fold_left_app. Qed.

Lemma run_forwarded (events : list heard_event) (d : display) (w : world) :
  run (forwarded events d) w
  = {| session :=
         {| transcript :=
              fold_left appended (sent_fragments events)
                        (transcript (session w));
            startTime := startTime (session w);
            eyeContactScores := eyeContactScores (session w);
            facesDetected := facesDetected (session w) |};
       sent := sent w |}.
Proof.
  revert d w. induction events as [|[[now idx] results] events IH];
    intros d w.
  - destruct w as [[? ? ? ?] ?]. reflexivity.
  - cbn [forwarded fst snd]. rewrite run_cat, IH.
    destruct (onresult_sends now idx results d) as [interim [I S]].
    rewrite S. unfold sent_fragments. cbn [flat_map]. unfold finals_of.
    cbn [fst snd].
    assert (E : run (map (pair now) interim) w = w).
    { destruct I as [I|[text I]]; subst interim; reflexivity. }
    rewrite map_app, run_cat, E. rewrite fold_left_app.
    destruct (filter isFinal (skipn idx results)) as [|r finals].
    + destruct w as [[? ? ? ?] ?]. reflexivity.
    + reflexivity.
Qed.

Lemma sent_fragments_words (events : list heard_event) :
  fragment_words (sent_fragments events) = heard_words events.
Proof.
  induction events as [|e events IH]; [reflexivity|].
  unfold sent_fragments in *. cbn [flat_map heard_words fold_right].
  fold (heard_words events). rewrite <- IH.
  destruct (finals_of e) as [|r finals] eqn:F.
  - reflexivity.
  - cbn [app fragment_words fold_right].
    rewrite words_trim, words_final_text. reflexivity.
Qed.

Lemma sent_fragments_last (events : list heard_event) :
  match last_finals events with
  | [] => sent_fragments events = []
  | finals =>
      exists before,
        sent_fragments events = (before ++ [trim (final_text finals)])%list
  end.
Proof.
  induction events as [|e events IH]; [reflexivity|].
  cbn [last_finals]. unfold sent_fragments in *. cbn [flat_map].
  destruct (last_finals events) as [|r finals].
  - rewrite IH, app_nil_r.
    destruct (finals_of e) as [|r finals]; [reflexivity|].
    exists []. reflexivity.
  - destruct IH as [before IH]. rewrite IH.
    eexists. rewrite app_assoc. reflexivity.
Qed.

Lemma trimmed_end (s : jsstring) :
  ends_in_space true (trim s) = (words s =? 0)%nat.
Proof.
  rewrite <- words_trim.
  destruct (trim_shape s) as [_ [_ [_ [_ [_ [E|[Cs Ce]]]]]]].
  - rewrite E. reflexivity.
  - unfold clean_end in Ce. apply negb_true_iff in Ce. rewrite Ce.
    destruct (trim s) as [|c t]; [discriminate|].
    cbn [clean_start] in Cs. apply negb_true_iff in Cs.
    unfold words. cbn [words_scan]. rewrite Cs. reflexivity.
Qed.

(** X18: when the client forwards the final results of its recognition
    events to a connection just opened, the word count the analyzer will
    take is the number of words of all the final results, plus one, plus
    one more when the final results of the last event that had any hold no
    word at all. *)
Theorem forwarded_word_count (opened : Z) (events : list heard_event)
  (d : display) :
  wordCount (transcript (session (run (forwarded events d) (connect opened))))
  = Z.of_nat (heard_words events) + 1
    + match last_finals events with
      | [] => 0
      | finals => if (result_words finals =? 0)%nat then 1 else 0
      end.
Proof.
  rewrite run_forwarded. cbn [session transcript connect fresh].
  pose proof (sent_fragments_last events) as L.
  rewrite <- sent_fragments_words.
  destruct (last_finals events) as [|r finals].
  - rewrite L. reflexivity.
  - destruct L as [before L].
    destruct (sent_fragments events) as [|f fragments] eqn:F.
    + destruct before; discriminate.
    + destruct (joined_count f fragments) as [_ count].
      rewrite count. f_equal.
      assert (E : last (f :: fragments) []
                  = trim (final_text (r :: finals))).
      { rewrite L. apply last_last. }
      rewrite E, trimmed_end, words_final_text. reflexivity.
Qed.

(** *** The face counter *)

Lemma face_count_after_client_message (now : Z) (m : inbound) (w : world) :
  client_message m ->
  facesDetected (session w) = 0 ->
  facesDetected (session (after now m w)) = 0.
Proof.
  intros [t o idx results d H|W H o dets I|o q I|o I] F.
  - destruct o.
    + destruct (onresult_sends t idx results d) as [interim [C S]].
      rewrite S in H. apply in_app_or in H. destruct H as [H|H].
      * destruct C as [C|[text C]]; subst interim; [destruct H|].
        destruct H as [H|[]]. subst m. exact F.
      * destruct (filter isFinal (skipn idx results)); [destruct H|].
        destruct H as [H|[]]. subst m. exact F.
    + unfold onresult in H. rewrite gather_texts in H. cbn [snd] in H.
      rewrite !andb_false_r in H. destruct H.
  - unfold detectEyeContact_sends in I.
    destruct (detectEyeContact W H o dets) as [t|]; [|destruct I].
    destruct (sent_score t); [|destruct I].
    destruct I as [I|[]]. subst m. exact F.
  - unfold startRecording_sends in I. destruct o; [|destruct I].
    destruct I as [I|[]]. subst m. reflexivity.
  - unfold stopRecording_sends in I. destruct o; [|destruct I].
    destruct I as [I|[]]. subst m. rewrite stop_session. exact F.
Qed.

(** X19: no function of the client sends a [face_detected] event, so on a
    connection that receives only what the client sends the face counter
    stays 0, whatever the faces the detector finds. *)
Theorem faces_never_counted (opened : Z) (messages : list (Z * inbound)) :
  Forall (fun m => client_message (snd m)) messages ->
  facesDetected (session (run messages (connect opened))) = 0.
Proof.
  intros H.
  assert (G : forall w, facesDetected (session w) = 0 ->
                        facesDetected (session (run messages w)) = 0).
  { induction H as [|[now m] messages Hm _ IH]; intros w F.
    - exact F.
    - cbn [run fold_left fst snd]. apply IH.
      apply face_count_after_client_message; assumption. }
  apply G. reflexivity.
Qed.

Lemma faces_never_counted_witness :
  Forall (fun m => client_message (snd m))
         [(0, ev_start (lit "Why should we hire you?"));
          (500, ev_eye_contact 90);
          (9000, ev_stop)]
  /\ facesDetected (session (run
        [(0, ev_start (lit "Why should we hire you?"));
         (500, ev_eye_contact 90);
         (9000, ev_stop)] (connect 0))) = 0.
Proof.
  assert (H : Forall (fun m => client_message (snd m))
                [(0, ev_start (lit "Why should we hire you?"));
                 (500, ev_eye_contact 90);
                 (9000, ev_stop)]).
  { repeat constructor; cbn [snd].
    - apply (from_startRecording _ true "Why should we hire you?").
      left. reflexivity.
    - apply (from_detectEyeContact _ 640 480 true [centred]).
      left. reflexivity.
    - apply (from_stopRecording _ true). left. reflexivity. }
  split; [exact H|].
  exact (faces_never_counted 0 _ H).
Defined.

End ClientMore.
